(** * readme_update_helptext: splicing captured help text into readme.rst

    A shallow embedding of [_misc/readme_update_helptext.py].  The script
    runs [python3 ../nirw-search --help], reformats the captured standard
    output and replaces the region of [readme.rst] delimited by the lines
    [.. BEGIN HELP TEXT] and [.. END HELP TEXT].

    Python values are modelled as follows.
    - [str]   : a list of Unicode code points ([N]);
    - [bytes] : a list of [Byte.byte];
    - [int]   : [Z] (indices, [-1] for "not found");
    - the process environment (child process, the file [readme.rst] and
      whether it may be written, the text printed on standard output) :
      the record [world], threaded through a state-and-exception monad
      [M].

    The file is laid out as: the Python built-ins the script calls
    ([Py]), the UTF-8 codec ([Codec]), the environment ([IO]), the script
    itself ([main]), and then the properties. *)

From Stdlib Require Import String Ascii.
From Stdlib Require Import List ZArith NArith Bool Lia.
From Stdlib Require Import Strings.Byte.
Import ListNotations.

Local Open Scope Z_scope.

(** ** Python [str] and [bytes] values *)

Definition codepoint := N.
Definition str := list codepoint.
Definition bytes := list byte.

Definition len {A : Type} (s : list A) : Z := Z.of_nat (List.length s).

(** Source literals.  [py] reads a literal the way Python reads the text
    between the quotes of a string literal: a backslash followed by [n],
    [r], [t] or a backslash is an escape, every other character stands
    for itself.  Only ASCII literals occur in the script. *)

Definition escape (a : ascii) : option codepoint :=
  match a with
  | "n"%char => Some 10%N
  | "r"%char => Some 13%N
  | "t"%char => Some 9%N
  | "\"%char => Some 92%N
  | _ => None
  end.

Fixpoint py (lit : string) : str :=
  match lit with
  | EmptyString => []
  | String a rest =>
      match a, rest with
      | "\"%char, String e rest' =>
          match escape e with
          | Some c => c :: py rest'
          | None => N_of_ascii a :: py rest
          end
      | _, _ => N_of_ascii a :: py rest
      end
  end.

(** [pyb] is the corresponding bytes literal, [b'...']. *)

Definition byte_of_N (n : N) : byte :=
  match Byte.of_N n with
  | Some b => b
  | None => x00
  end.

Definition pyb (lit : string) : bytes := map byte_of_N (py lit).

(** ** Built-in operations on [str] *)

Module Py.

Local Open Scope N_scope.

(** [Py_UNICODE_ISSPACE]: the characters [str.strip], [str.rstrip] and
    [str.isspace] treat as whitespace. *)
Definition isspace_char (c : codepoint) : bool :=
  ((9 <=? c) && (c <=? 13))
  || ((28 <=? c) && (c <=? 32))
  || (c =? 133) || (c =? 160) || (c =? 5760)
  || ((8192 <=? c) && (c <=? 8202))
  || (c =? 8232) || (c =? 8233) || (c =? 8239) || (c =? 8287)
  || (c =? 12288).

(** [Py_UNICODE_ISLINEBREAK]: the line boundaries of [str.splitlines]. *)
Definition islinebreak (c : codepoint) : bool :=
  ((10 <=? c) && (c <=? 13))
  || ((28 <=? c) && (c <=? 30))
  || (c =? 133) || (c =? 8232) || (c =? 8233).

(** [s.lstrip()] *)
Fixpoint lstrip (s : str) : str :=
  match s with
  | [] => []
  | c :: s' => if isspace_char c then lstrip s' else s
  end.

(** [s.rstrip()]: the trailing run of whitespace is dropped. *)
Fixpoint rstrip (s : str) : str :=
  match s with
  | [] => []
  | c :: s' =>
      match rstrip s' with
      | [] => if isspace_char c then [] else [c]
      | r => c :: r
      end
  end.

(** [s.strip()] *)
Definition strip (s : str) : str := rstrip (lstrip s).

(** Truth value of a [str]: the empty string is false. *)
Definition truthy (s : str) : bool :=
  match s with
  | [] => false
  | _ :: _ => true
  end.

(** [s.splitlines(keepends)].  A line ends at a line-break character,
    CR LF counting as one break; no empty line is produced after a final
    break, and the empty string has no lines. *)
Fixpoint splitlines (keepends : bool) (s : str) : list str :=
  match s with
  | [] => []
  | c :: s' =>
      if islinebreak c then
        match s' with
        | d :: s'' =>
            if (c =? 13) && (d =? 10)
            then (if keepends then [c; d] else []) :: splitlines keepends s''
            else (if keepends then [c] else []) :: splitlines keepends s'
        | [] => [if keepends then [c] else []]
        end
      else
        match splitlines keepends s' with
        | [] => [[c]]
        | l :: ls => (c :: l) :: ls
        end
  end.

(** [''.join(parts)] *)
Definition join (parts : list str) : str := List.concat parts.

(** [s.startswith(prefix)], used by the substring search. *)
Fixpoint startswith (s prefix : str) {struct prefix} : bool :=
  match prefix, s with
  | [], _ => true
  | p :: prefix', c :: s' => (p =? c) && startswith s' prefix'
  | _ :: _, [] => false
  end.

Local Open Scope Z_scope.

(** The search loop of [str.find]: [s] is the text from index [i] on. *)
Fixpoint find_from (s sub : str) (i : Z) : Z :=
  if startswith s sub then i
  else match s with
       | [] => -1
       | _ :: s' => find_from s' sub (i + 1)
       end.

(** Slice index adjustment: a negative index counts from the end, and
    the result is clipped to [0 .. n]. *)
Definition adjust_index (n i : Z) : Z :=
  if i <? 0 then Z.max 0 (i + n) else Z.min i n.

(** [s.find(sub, start)]: the lowest index [>= start] at which [sub]
    occurs, or [-1].  A start beyond the end finds nothing, not even the
    empty string. *)
Definition find (s sub : str) (start : Z) : Z :=
  let start := if start <? 0 then Z.max 0 (start + len s) else start in
  if len s <? start then -1
  else find_from (skipn (Z.to_nat start) s) sub start.

(** [s[:stop]] and [s[start:]] *)
Definition slice_to (s : str) (stop : Z) : str :=
  firstn (Z.to_nat (adjust_index (len s) stop)) s.

Definition slice_from (s : str) (start : Z) : str :=
  skipn (Z.to_nat (adjust_index (len s) start)) s.

(** [repr(s)] for a string of printable ASCII characters with no quote
    and no backslash: the text between single quotes.  The script only
    formats its two marker constants, which are of that kind. *)
Definition plain_char (c : codepoint) : bool :=
  (32 <=? c)%N && (c <=? 126)%N && negb (c =? 39)%N && negb (c =? 92)%N.

Definition repr (s : str) : str := py "'" ++ s ++ py "'".

(** [textwrap.indent(text, prefix)] with the default predicate: the
    prefix is added to the lines that do not consist solely of
    whitespace. *)
Definition indent_predicate (line : str) : bool := truthy (strip line).

Definition indent (text prefix : str) : str :=
  join (map (fun line => if indent_predicate line then prefix ++ line else line)
            (splitlines true text)).

End Py.

(** ** The UTF-8 codec and text-mode newline handling *)

Module Codec.

Local Open Scope N_scope.

Definition in_range (lo hi : N) (b : byte) : bool :=
  (lo <=? Byte.to_N b) && (Byte.to_N b <=? hi).

(** Payload of a continuation byte [10xxxxxx]. *)
Definition low6 (b : byte) : N := Byte.to_N b - 128.

(** [bs.decode('utf-8')] with the default strict error handling: [None]
    stands for [UnicodeDecodeError].  Overlong forms, surrogates and
    values above U+10FFFF are rejected through the bounds on the second
    byte. *)
Fixpoint utf_8_decode (bs : bytes) : option str :=
  match bs with
  | [] => Some []
  | b0 :: r0 =>
      let n0 := Byte.to_N b0 in
      if n0 <? 128 then option_map (cons n0) (utf_8_decode r0)
      else if in_range 194 223 b0 then
        match r0 with
        | b1 :: r1 =>
            if in_range 128 191 b1
            then option_map (cons ((n0 - 192) * 64 + low6 b1)) (utf_8_decode r1)
            else None
        | _ => None
        end
      else if in_range 224 239 b0 then
        match r0 with
        | b1 :: b2 :: r2 =>
            let lo := if n0 =? 224 then 160 else 128 in
            let hi := if n0 =? 237 then 159 else 191 in
            if in_range lo hi b1 && in_range 128 191 b2
            then option_map
                   (cons ((n0 - 224) * 4096 + low6 b1 * 64 + low6 b2))
                   (utf_8_decode r2)
            else None
        | _ => None
        end
      else if in_range 240 244 b0 then
        match r0 with
        | b1 :: b2 :: b3 :: r3 =>
            let lo := if n0 =? 240 then 144 else 128 in
            let hi := if n0 =? 244 then 143 else 191 in
            if in_range lo hi b1 && in_range 128 191 b2 && in_range 128 191 b3
            then option_map
                   (cons ((n0 - 240) * 262144 + low6 b1 * 4096
                          + low6 b2 * 64 + low6 b3))
                   (utf_8_decode r3)
            else None
        | _ => None
        end
      else None
  end.

(** A code point that UTF-8 can carry: below U+110000 and no surrogate. *)
Definition scalar (c : codepoint) : bool :=
  (c <? 55296) || ((57343 <? c) && (c <? 1114112)).

Definition encode_char (c : codepoint) : option bytes :=
  if negb (scalar c) then None
  else if c <? 128 then Some [byte_of_N c]
  else if c <? 2048 then
    Some [byte_of_N (192 + c / 64); byte_of_N (128 + c mod 64)]
  else if c <? 65536 then
    Some [byte_of_N (224 + c / 4096); byte_of_N (128 + (c / 64) mod 64);
          byte_of_N (128 + c mod 64)]
  else
    Some [byte_of_N (240 + c / 262144); byte_of_N (128 + (c / 4096) mod 64);
          byte_of_N (128 + (c / 64) mod 64); byte_of_N (128 + c mod 64)].

(** [s.encode('utf-8')]: [None] stands for [UnicodeEncodeError]. *)
Fixpoint utf_8_encode (s : str) : option bytes :=
  match s with
  | [] => Some []
  | c :: s' =>
      match encode_char c, utf_8_encode s' with
      | Some bs, Some rest => Some (bs ++ rest)
      | _, _ => None
      end
  end.

(** Reading in text mode with the default [newline=None]: CR LF and a
    lone CR both arrive as LF. *)
Fixpoint universal_newlines (s : str) : str :=
  match s with
  | [] => []
  | c :: s' =>
      if c =? 13 then
        10 :: match s' with
              | d :: s'' =>
                  if d =? 10 then universal_newlines s''
                  else universal_newlines s'
              | [] => []
              end
      else c :: universal_newlines s'
  end.

(** Writing in text mode with the default [newline=None] turns LF into
    [os.linesep].  The script is a POSIX one ([#!/usr/bin/env python3],
    it runs [python3]); there [os.linesep] is LF and the text is written
    as it is. *)
Definition os_linesep : str := [10].

Fixpoint translate_linesep (s : str) : str :=
  match s with
  | [] => []
  | c :: s' =>
      if c =? 10 then os_linesep ++ translate_linesep s'
      else c :: translate_linesep s'
  end.

End Codec.

(** ** The environment: child process, file and console *)

Module IO.

Inductive exn : Type :=
| OSError              (* the child cannot be started, the file cannot be opened *)
| UnicodeDecodeError
| UnicodeEncodeError.

(** What running [python3 ../nirw-search --help] does: the interpreter
    cannot be started, or the child runs to completion with an exit
    status and the bytes it wrote on its standard output. *)
Inductive child : Type :=
| LaunchFails
| Exits (status : Z) (out : bytes).

(** [subprocess.CompletedProcess] *)
Record CompletedProcess : Type :=
  { returncode : Z; stdout : bytes }.

Record world : Type :=
  { help_command : child;            (* behaviour of the child process *)
    readme_rst : option bytes;       (* contents of readme.rst, if it can be read *)
    readme_writable : bool;          (* may readme.rst be opened for writing *)
    printed : list str }.            (* lines printed so far *)

Inductive result (A : Type) : Type :=
| Return (a : A)
| Raise (e : exn).
Arguments Return {A} a.
Arguments Raise {A} e.

Definition M (A : Type) : Type := world -> result A * world.

Definition ret {A} (a : A) : M A := fun w => (Return a, w).

Definition raise {A} (e : exn) : M A := fun w => (Raise e, w).

Definition bind {A B} (m : M A) (k : A -> M B) : M B :=
  fun w =>
    match m w with
    | (Return a, w') => k a w'
    | (Raise e, w') => (Raise e, w')
    end.

(** [subprocess.run(args, stdout=subprocess.PIPE)], without [check=True]:
    the exit status is recorded in the result and nothing is raised for
    a non-zero one. *)
Definition subprocess_run : M CompletedProcess :=
  fun w =>
    match help_command w with
    | LaunchFails => (Raise OSError, w)
    | Exits status out => (Return {| returncode := status; stdout := out |}, w)
    end.

(** [bs.decode('utf-8')] *)
Definition decode (bs : bytes) : M str :=
  match Codec.utf_8_decode bs with
  | Some s => ret s
  | None => raise UnicodeDecodeError
  end.

(** [with open('readme.rst', 'r', encoding='utf-8') as f: f.read()] *)
Definition read_readme : M str :=
  fun w =>
    match readme_rst w with
    | None => (Raise OSError, w)
    | Some bs =>
        match Codec.utf_8_decode bs with
        | Some s => (Return (Codec.universal_newlines s), w)
        | None => (Raise UnicodeDecodeError, w)
        end
    end.

(** [with open('readme.rst', 'w', encoding='utf-8') as f: f.write(s)]:
    on a file that may not be written [open] raises ([PermissionError],
    an [OSError]) and the file stays as it is; otherwise opening
    truncates the file, and the write then stores the encoded text. *)
Definition write_readme (s : str) : M unit :=
  fun w =>
    if negb (readme_writable w) then (Raise OSError, w)
    else
      match Codec.utf_8_encode (Codec.translate_linesep s) with
      | Some bs =>
          (Return tt,
           {| help_command := help_command w;
              readme_rst := Some bs;
              readme_writable := readme_writable w;
              printed := printed w |})
      | None =>
          (Raise UnicodeEncodeError,
           {| help_command := help_command w;
              readme_rst := Some [];
              readme_writable := readme_writable w;
              printed := printed w |})
      end.

(** [print(s)] *)
Definition print (s : str) : M unit :=
  fun w =>
    (Return tt,
     {| help_command := help_command w;
        readme_rst := readme_rst w;
        readme_writable := readme_writable w;
        printed := printed w ++ [s] |}).

End IO.

Import IO.

Notation "x <- m ;; k" := (bind m (fun x => k))
  (at level 61, m at next level, right associativity).
Notation "m ;;; k" := (bind m (fun _ => k))
  (at level 61, right associativity).

(** ** The script *)

Definition help_begin_text : str := py ".. BEGIN HELP TEXT".
Definition help_end_text : str := py ".. END HELP TEXT".

(** ['Error: {!r} not found'.format(marker)] *)
Definition error_not_found (marker : str) : str :=
  py "Error: " ++ Py.repr marker ++ py " not found".

(** The two assignments to [help_output], from the decoded standard
    output of the child. *)
Definition format_help (decoded : str) : str :=
  let help_output := Py.rstrip decoded ++ py "\n\n" in
  let help_output :=
    py "\nOutput of ``nirw-search --help``::\n\n"
    ++ Py.indent help_output (py "   ") in
  help_output.

Definition main : M unit :=
  p <- subprocess_run ;;
  decoded <- decode (stdout p) ;;
  let help_output := format_help decoded in
  data <- read_readme ;;
  let help_begin_index := Py.find data help_begin_text 0 in
  let help_end_index := Py.find data help_end_text help_begin_index in
  if help_begin_index =? -1 then
    print (error_not_found help_begin_text)
  else if help_end_index =? -1 then
    print (error_not_found help_end_text)
  else
    let help_begin_index := help_begin_index + len help_begin_text + 1 in
    let data_update :=
      Py.slice_to data help_begin_index
      ++ help_output
      ++ Py.slice_from data help_end_index in
    write_readme data_update.

(** ** Vocabulary of the properties *)

(** [sub] occurs in [s] at index [i]. *)
Definition occurs_at (sub s : str) (i : Z) : Prop :=
  exists pre post, s = pre ++ sub ++ post /\ len pre = i.

(** [sub] occurs somewhere in [s]. *)
Definition occurs (sub s : str) : Prop := exists i, occurs_at sub s i.

(** [i] is the first index [>= start] at which [sub] occurs in [s]. *)
Definition first_occurrence_from (sub s : str) (start i : Z) : Prop :=
  start <= i /\ occurs_at sub s i /\
  forall j, start <= j < i -> ~ occurs_at sub s j.

(** The text spliced between the markers, when the child could be run and
    its output is UTF-8. *)
Definition formatted_block (w : world) : option str :=
  match help_command w with
  | LaunchFails => None
  | Exits _ out => option_map format_help (Codec.utf_8_decode out)
  end.

(** The text [f.read()] returns for the document, when the file exists and
    is UTF-8. *)
Definition document_text (w : world) : option str :=
  match readme_rst w with
  | None => None
  | Some bs => option_map Codec.universal_newlines (Codec.utf_8_decode bs)
  end.

(** The text a later reader finds in the document, decoded as UTF-8 with
    the bytes taken as they are. *)
Definition stored_text (w : world) : option str :=
  match readme_rst w with
  | None => None
  | Some bs => Codec.utf_8_decode bs
  end.

(** The environment after a line has been printed, and after the document
    has been overwritten. *)
Definition after_print (w : world) (line : str) : world :=
  {| help_command := help_command w;
     readme_rst := readme_rst w;
     readme_writable := readme_writable w;
     printed := printed w ++ [line] |}.

Definition after_write (w : world) (bs : bytes) : world :=
  {| help_command := help_command w;
     readme_rst := Some bs;
     readme_writable := readme_writable w;
     printed := printed w |}.

(** The document the script writes for the text [data] and the block
    [block], in the words of the splice: everything up to the splice
    point, the block, everything from the end marker on. *)
Definition splice_point (data : str) : Z :=
  Py.find data help_begin_text 0 + len (help_begin_text ++ py "\n").

Definition end_marker_position (data : str) : Z :=
  Py.find data help_end_text (Py.find data help_begin_text 0).

Definition spliced (data block : str) : str :=
  firstn (Z.to_nat (splice_point data)) data
  ++ block
  ++ skipn (Z.to_nat (end_marker_position data)) data.

(** A document the splice applies to: it contains the begin marker and,
    at or after it, the end marker. *)
Definition valid_document (data : str) : Prop :=
  exists i j,
    occurs_at help_begin_text data i /\ i <= j /\
    occurs_at help_end_text data j.

(** The marker whose search fails: the begin marker when it is absent,
    the end marker when the begin marker is found and no end marker
    stands at or after it. *)
Inductive missing_marker (data : str) : str -> Prop :=
| begin_missing :
    ~ occurs help_begin_text data ->
    missing_marker data help_begin_text
| end_missing (b : Z) :
    first_occurrence_from help_begin_text data 0 b ->
    (forall j, b <= j -> ~ occurs_at help_end_text data j) ->
    missing_marker data help_end_text.

(** The end of [pre] is a line boundary: what follows starts a line. *)
Definition at_line_start (pre : str) : Prop :=
  pre = [] \/ exists pre' c, pre = pre' ++ [c] /\ Py.islinebreak c = true.

(** [line] stands in [doc] at the start of a line, behind exactly the
    three-space prefix. *)
Definition appears_indented (line doc : str) : Prop :=
  exists pre post,
    doc = pre ++ py "   " ++ line ++ post /\ at_line_start pre.

Definition only_whitespace (s : str) : Prop :=
  forall c, In c s -> Py.isspace_char c = true.

(** Text that UTF-8 can carry, and text without carriage returns. *)
Definition valid_text (s : str) : Prop :=
  forall c, In c s -> Codec.scalar c = true.

Definition no_cr (s : str) : Prop := ~ In 13%N s.

(** The label line of the block. *)
Definition label_line : str := py "Output of ``nirw-search --help``::".

(** The block as the specification words it: decode, strip trailing
    whitespace, append two newlines, indent by three spaces, and put the
    label line and a blank line in front. *)
Definition FormattedBlock_spec (out : bytes) : option str :=
  match Codec.utf_8_decode out with
  | None => None
  | Some decoded =>
      let captured := Py.rstrip decoded ++ py "\n" ++ py "\n" in
      Some (label_line ++ py "\n"
            ++ py "\n"
            ++ Py.indent captured (py "   "))
  end.

(** The same with the newline that the script puts before the label
    line. *)
Definition FormattedBlock_with_leading_newline (out : bytes) : option str :=
  match Codec.utf_8_decode out with
  | None => None
  | Some decoded =>
      let captured := Py.rstrip decoded ++ py "\n" ++ py "\n" in
      Some (py "\n"
            ++ label_line ++ py "\n"
            ++ py "\n"
            ++ Py.indent captured (py "   "))
  end.

(** ** Concrete environments *)

Definition world_of (cmd : child) (doc : bytes) : world :=
  {| help_command := cmd; readme_rst := Some doc;
     readme_writable := true; printed := [] |}.

(** The scenario of the specification. *)
Definition scenario_stdout : bytes :=
  pyb "usage: tool [-h]\n\noptions:\n  -h, --help  show help\n".

Definition scenario_document : bytes :=
  pyb "intro\n.. BEGIN HELP TEXT\nOLD\n.. END HELP TEXT\nrest\n".

Definition scenario : world :=
  world_of (Exits 0 scenario_stdout) scenario_document.

Definition scenario_updated : str :=
  py "intro\n.. BEGIN HELP TEXT\n\nOutput of ``nirw-search --help``::\n\n   usage: tool [-h]\n\n   options:\n     -h, --help  show help\n\n.. END HELP TEXT\nrest\n".

Definition scenario_text : str :=
  py "intro\n.. BEGIN HELP TEXT\nOLD\n.. END HELP TEXT\nrest\n".

Definition scenario_block : str :=
  format_help (py "usage: tool [-h]\n\noptions:\n  -h, --help  show help\n").

(** The end marker stands only before the begin marker. *)
Definition end_before_begin : world :=
  world_of (Exits 0 scenario_stdout)
    (pyb "x\n.. END HELP TEXT\n.. BEGIN HELP TEXT\ny\n").

(** No newline behind the begin marker. *)
Definition no_newline_after_begin : world :=
  world_of (Exits 0 scenario_stdout)
    (pyb "intro\n.. BEGIN HELP TEXTX\nOLD\n.. END HELP TEXT\nrest\n").

Definition no_newline_text : str :=
  py "intro\n.. BEGIN HELP TEXTX\nOLD\n.. END HELP TEXT\nrest\n".

(** The child prints only whitespace. *)
Definition whitespace_output : world :=
  world_of (Exits 0 (pyb " \n\t\n")) scenario_document.

(** The child exits with status 1 and has printed nothing. *)
Definition exit_nonzero : world :=
  world_of (Exits 1 (pyb "")) scenario_document.

(** The help text has a line that holds a single space. *)
Definition blank_line_stdout : bytes := pyb "a\n \nb\n".

Definition blank_line_output : world :=
  world_of (Exits 0 blank_line_stdout) scenario_document.

(** Each marker stands twice in the document. *)
Definition repeated_markers_text : str :=
  py ".. BEGIN HELP TEXT\n.. BEGIN HELP TEXT\n.. END HELP TEXT\n.. END HELP TEXT\n".

Definition repeated_markers : world :=
  world_of (Exits 0 scenario_stdout)
    (pyb ".. BEGIN HELP TEXT\n.. BEGIN HELP TEXT\n.. END HELP TEXT\n.. END HELP TEXT\n").

(** The help text itself shows the end marker. *)
Definition end_marker_in_help : world :=
  world_of (Exits 0 (pyb ".. END HELP TEXT\n"))
    (pyb ".. BEGIN HELP TEXT\n.. END HELP TEXT\n").

(** The end marker stands right behind the begin marker. *)
Definition adjacent_markers_text : str :=
  py "x\n.. BEGIN HELP TEXT.. END HELP TEXT\nz\n".

Definition adjacent_markers : world :=
  world_of (Exits 0 scenario_stdout)
    (pyb "x\n.. BEGIN HELP TEXT.. END HELP TEXT\nz\n").

(** The output of the scenario with more whitespace behind it. *)
Definition scenario_decoded : str :=
  py "usage: tool [-h]\n\noptions:\n  -h, --help  show help\n".

Definition padded_stdout : bytes :=
  pyb "usage: tool [-h]\n\noptions:\n  -h, --help  show help\n  \n\t\n\n".

(** The end marker stands in the middle of a line. *)
Definition end_marker_mid_line_text : str :=
  py ".. BEGIN HELP TEXT\nold text .. END HELP TEXT\n".

Definition end_marker_mid_line : world :=
  world_of (Exits 0 scenario_stdout)
    (pyb ".. BEGIN HELP TEXT\nold text .. END HELP TEXT\n").

(** What [textwrap.indent] does to one line. *)
Definition indent_line (prefix line : str) : str :=
  if Py.indent_predicate line then prefix ++ line else line.

(** The document has CR LF line ends. *)
Definition crlf_document : bytes :=
  pyb "a\r\n.. BEGIN HELP TEXT\r\nOLD\r\n.. END HELP TEXT\r\nz\r\n".

Definition crlf_world : world :=
  world_of (Exits 0 scenario_stdout) crlf_document.

(** Text stands behind the begin marker on its line. *)
Definition annotated_marker_text : str :=
  py "intro\n.. BEGIN HELP TEXT (generated)\nOLD\n.. END HELP TEXT\nrest\n".

Definition annotated_marker : world :=
  world_of (Exits 0 scenario_stdout)
    (pyb "intro\n.. BEGIN HELP TEXT (generated)\nOLD\n.. END HELP TEXT\nrest\n").

(** * Properties *)

(** ** Lengths, prefixes and the substring search *)

Lemma len_app {A : Type} (a b : list A) : len (a ++ b) = len a + len b.
Proof. unfold len. rewrite length_app. lia. Qed.

Lemma len_nonneg {A : Type} (a : list A) : 0 <= len a.
Proof. unfold len. lia. Qed.

Lemma len_cons {A : Type} (x : A) (a : list A) : len (x :: a) = 1 + len a.
Proof. unfold len. simpl length. lia. Qed.

Lemma skipn_len_app {A : Type} (a b : list A) :
  skipn (Z.to_nat (len a)) (a ++ b) = b.
Proof.
  unfold len. rewrite Nat2Z.id, skipn_app, skipn_all, Nat.sub_diag.
  reflexivity.
Qed.

Lemma firstn_len_app {A : Type} (a b : list A) :
  firstn (Z.to_nat (len a)) (a ++ b) = a.
Proof.
  unfold len. rewrite Nat2Z.id, firstn_app, firstn_all, Nat.sub_diag.
  simpl. apply app_nil_r.
Qed.

Lemma startswith_true_iff (sub s : str) :
  Py.startswith s sub = true <-> exists post, s = sub ++ post.
Proof.
  revert s. induction sub as [|p sub IH]; intros s; simpl.
  - split; [intros _; exists s; reflexivity | reflexivity].
  - destruct s as [|c s].
    + split; [discriminate | intros [post Hp]; discriminate].
    + rewrite andb_true_iff, N.eqb_eq, IH. split.
      * intros [-> [post ->]]. exists post. reflexivity.
      * intros [post Hp]. injection Hp as -> ->. split; eauto.
Qed.

Lemma startswith_app (sub post : str) : Py.startswith (sub ++ post) sub = true.
Proof. apply startswith_true_iff. exists post. reflexivity. Qed.

Lemma occurs_at_iff (sub s : str) (i : Z) :
  occurs_at sub s i <->
  0 <= i <= len s /\ Py.startswith (skipn (Z.to_nat i) s) sub = true.
Proof.
  split.
  - intros (pre & post & -> & <-). split.
    + rewrite len_app. pose proof (len_nonneg pre).
      pose proof (len_nonneg (sub ++ post)). lia.
    + rewrite skipn_len_app. apply startswith_app.
  - intros [Hi Hs]. apply startswith_true_iff in Hs as [post Hp].
    exists (firstn (Z.to_nat i) s), post. split.
    + rewrite <- Hp. symmetry. apply firstn_skipn.
    + unfold len in *. rewrite length_firstn. lia.
Qed.

Lemma occurs_at_range (sub s : str) (i : Z) :
  occurs_at sub s i -> 0 <= i /\ i + len sub <= len s.
Proof.
  intros (pre & post & -> & <-). rewrite !len_app.
  pose proof (len_nonneg pre). pose proof (len_nonneg post). lia.
Qed.

(** The search loop returns the first position, counted from [i], at
    which the remaining text starts with [sub]. *)
Lemma find_from_spec (sub s : str) (i : Z) :
  (Py.find_from s sub i = -1 /\
   forall k, (k <= length s)%nat -> Py.startswith (skipn k s) sub = false)
  \/
  (exists k, (k <= length s)%nat /\
     Py.find_from s sub i = i + Z.of_nat k /\
     Py.startswith (skipn k s) sub = true /\
     forall j, (j < k)%nat -> Py.startswith (skipn j s) sub = false).
Proof.
  revert i. induction s as [|c s IH]; intros i; simpl Py.find_from.
  - destruct (Py.startswith [] sub) eqn:E.
    + right. exists 0%nat. repeat split; auto; try (intros; lia).
    + left. split; auto. intros k Hk. simpl in Hk.
      assert (k = 0)%nat as -> by lia. exact E.
  - destruct (Py.startswith (c :: s) sub) eqn:E.
    + right. exists 0%nat. simpl. repeat split; auto; try (intros; lia).
    + destruct (IH (i + 1)) as [[Hf Hn] | (k & Hk & Hf & Ht & Hn)].
      * left. split; auto. intros [|k] Hk; [exact E|].
        simpl. apply Hn. simpl in Hk. lia.
      * right. exists (S k). simpl. repeat split; auto; try lia.
        intros [|j] Hj; [exact E|]. simpl. apply Hn. lia.
Qed.

(** [find] with a start inside the text: not found means no occurrence
    from [start] on, and a result other than [-1] is the first
    occurrence from [start] on. *)
Lemma find_not_found (s sub : str) (start : Z) :
  0 <= start <= len s ->
  Py.find s sub start = -1 ->
  forall j, start <= j -> ~ occurs_at sub s j.
Proof.
  intros Hs Hf j Hj Hocc. apply occurs_at_iff in Hocc as [Hr Ht].
  unfold Py.find in Hf.
  destruct (start <? 0) eqn:E1; [lia|].
  destruct (len s <? start) eqn:E2; [lia|].
  destruct (find_from_spec sub (skipn (Z.to_nat start) s) start)
    as [[_ Hn] | (k & Hk & Hfk & _)]; [|lia].
  specialize (Hn (Z.to_nat j - Z.to_nat start)%nat).
  rewrite skipn_skipn in Hn.
  replace (Z.to_nat j - Z.to_nat start + Z.to_nat start)%nat
    with (Z.to_nat j) in Hn by lia.
  rewrite Hn in Ht; [discriminate|].
  rewrite length_skipn. unfold len in *. lia.
Qed.

Lemma find_found (s sub : str) (start r : Z) :
  0 <= start <= len s ->
  Py.find s sub start = r -> r <> -1 ->
  first_occurrence_from sub s start r.
Proof.
  intros Hs Hf Hr. unfold Py.find in Hf.
  destruct (start <? 0) eqn:E1; [lia|].
  destruct (len s <? start) eqn:E2; [lia|].
  destruct (find_from_spec sub (skipn (Z.to_nat start) s) start)
    as [[Hm _] | (k & Hk & Hfk & Ht & Hn)]; [congruence|].
  rewrite length_skipn in Hk. rewrite skipn_skipn in Ht.
  assert (Hr' : r = start + Z.of_nat k) by congruence.
  unfold first_occurrence_from. split; [lia|]. split.
  - apply occurs_at_iff. unfold len in *. split; [lia|].
    replace (Z.to_nat r) with (k + Z.to_nat start)%nat by lia. exact Ht.
  - intros j Hj Hocc. apply occurs_at_iff in Hocc as [_ Hocc].
    specialize (Hn (Z.to_nat j - Z.to_nat start)%nat).
    rewrite skipn_skipn in Hn.
    replace (Z.to_nat j - Z.to_nat start + Z.to_nat start)%nat
      with (Z.to_nat j) in Hn by lia.
    rewrite Hn in Hocc; [discriminate | lia].
Qed.

Lemma first_occurrence_unique (sub s : str) (start i j : Z) :
  first_occurrence_from sub s start i ->
  first_occurrence_from sub s start j -> i = j.
Proof.
  intros (Hi & Hoi & Hni) (Hj & Hoj & Hnj).
  destruct (Z.lt_trichotomy i j) as [L | [E | L]]; auto.
  - exfalso. apply (Hnj i); auto.
  - exfalso. apply (Hni j); auto.
Qed.

Lemma find_first_occurrence (s sub : str) (start r : Z) :
  0 <= start ->
  first_occurrence_from sub s start r ->
  Py.find s sub start = r.
Proof.
  intros Hs Hfo. pose proof Hfo as (Hle & Hocc & Hno).
  pose proof (occurs_at_range _ _ _ Hocc) as Hrange.
  pose proof (len_nonneg sub) as Hsub.
  assert (Hst : 0 <= start <= len s) by lia.
  destruct (Z.eq_dec (Py.find s sub start) (-1)) as [E | NE].
  - exfalso. exact (find_not_found _ _ _ Hst E r Hle Hocc).
  - eapply first_occurrence_unique; [|exact Hfo].
    apply find_found; auto.
Qed.

Lemma find_minus_one_iff (s sub : str) :
  Py.find s sub 0 = -1 <-> ~ occurs sub s.
Proof.
  pose proof (len_nonneg s) as Hl. split.
  - intros Hf [i Hocc]. pose proof (occurs_at_range _ _ _ Hocc).
    exact (find_not_found s sub 0 ltac:(lia) Hf i ltac:(lia) Hocc).
  - intros Hno. destruct (Z.eq_dec (Py.find s sub 0) (-1)) as [E | NE]; auto.
    exfalso. apply Hno.
    destruct (find_found s sub 0 _ ltac:(lia) eq_refl NE) as (_ & Hocc & _).
    exists (Py.find s sub 0). exact Hocc.
Qed.

(** ** The codec *)

Ltac Zify.zify_post_hook ::= Z.to_euclidean_division_equations.

Ltac boolprop :=
  repeat match goal with
    | H : (_ && _)%bool = true |- _ => apply andb_true_iff in H; destruct H
    | H : (_ && _)%bool = false |- _ => apply andb_false_iff in H; destruct H
    | H : (_ || _)%bool = true |- _ => apply orb_true_iff in H; destruct H
    | H : (_ || _)%bool = false |- _ => apply orb_false_iff in H; destruct H
    | H : negb _ = true |- _ => apply negb_true_iff in H
    | H : negb _ = false |- _ => apply negb_false_iff in H
    | H : (_ <=? _)%N = true |- _ => apply N.leb_le in H
    | H : (_ <=? _)%N = false |- _ => apply N.leb_gt in H
    | H : (_ <? _)%N = true |- _ => apply N.ltb_lt in H
    | H : (_ <? _)%N = false |- _ => apply N.ltb_ge in H
    | H : (_ =? _)%N = true |- _ => apply N.eqb_eq in H
    | H : (_ =? _)%N = false |- _ => apply N.eqb_neq in H
    end.

Lemma scalar_iff (c : codepoint) :
  Codec.scalar c = true <-> (c < 55296 \/ 57343 < c < 1114112)%N.
Proof.
  unfold Codec.scalar.
  rewrite orb_true_iff, andb_true_iff, !N.ltb_lt. reflexivity.
Qed.

Lemma to_N_byte_of_N (n : N) : (n < 256)%N -> Byte.to_N (byte_of_N n) = n.
Proof.
  intros Hn. unfold byte_of_N. destruct (Byte.of_N n) as [b|] eqn:E.
  - apply Byte.to_of_N. exact E.
  - apply Byte.of_N_None_iff in E. lia.
Qed.

Lemma byte_of_N_to_N (b : byte) : byte_of_N (Byte.to_N b) = b.
Proof. unfold byte_of_N. rewrite Byte.of_to_N. reflexivity. Qed.

Lemma valid_text_nil : valid_text [].
Proof. intros c []. Qed.

Lemma valid_text_cons (c : codepoint) (s : str) :
  Codec.scalar c = true -> valid_text s -> valid_text (c :: s).
Proof. intros Hc Hs d [<- | Hd]; auto. Qed.

Lemma valid_text_app (a b : str) :
  valid_text (a ++ b) <-> valid_text a /\ valid_text b.
Proof.
  unfold valid_text. split.
  - intros H. split; intros c Hc; apply H, in_app_iff; auto.
  - intros [Ha Hb] c Hc. apply in_app_iff in Hc as [Hc | Hc]; auto.
Qed.

Lemma valid_text_firstn (n : nat) (s : str) :
  valid_text s -> valid_text (firstn n s).
Proof.
  intros H. rewrite <- (firstn_skipn n s) in H.
  apply valid_text_app in H. tauto.
Qed.

Lemma valid_text_skipn (n : nat) (s : str) :
  valid_text s -> valid_text (skipn n s).
Proof.
  intros H. rewrite <- (firstn_skipn n s) in H.
  apply valid_text_app in H. tauto.
Qed.

(** Whatever the decoder accepts is made of scalar values. *)
Lemma utf_8_decode_valid (bs : bytes) (s : str) :
  Codec.utf_8_decode bs = Some s -> valid_text s.
Proof.
  remember (length bs) as n eqn:Hn. revert bs Hn s.
  induction n as [n IH] using lt_wf_ind. intros bs Hn s.
  destruct bs as [|b0 r0]; cbn [Codec.utf_8_decode].
  { intros [= <-]. apply valid_text_nil. }
  pose proof (Byte.to_N_bounded b0) as B0.
  destruct (Byte.to_N b0 <? 128)%N eqn:E1.
  { destruct (Codec.utf_8_decode r0) as [t|] eqn:D; [|discriminate].
    intros [= <-]. apply valid_text_cons.
    - apply scalar_iff. boolprop. lia.
    - eapply (IH (length r0)); [subst n; simpl; lia | reflexivity | exact D]. }
  destruct (Codec.in_range 194 223 b0) eqn:E2.
  { destruct r0 as [|b1 r1]; [discriminate|].
    destruct (Codec.in_range 128 191 b1) eqn:E3; [|discriminate].
    destruct (Codec.utf_8_decode r1) as [t|] eqn:D; [|discriminate].
    intros [= <-]. apply valid_text_cons.
    - apply scalar_iff. unfold Codec.in_range, Codec.low6 in *. boolprop. lia.
    - eapply (IH (length r1)); [subst n; simpl; lia | reflexivity | exact D]. }
  destruct (Codec.in_range 224 239 b0) eqn:E3.
  { destruct r0 as [|b1 [|b2 r2]]; try discriminate.
    destruct (Codec.in_range _ _ b1 && Codec.in_range 128 191 b2)%bool eqn:E4;
      [|discriminate].
    destruct (Codec.utf_8_decode r2) as [t|] eqn:D; [|discriminate].
    intros [= <-]. apply valid_text_cons.
    - apply scalar_iff. unfold Codec.in_range, Codec.low6 in *.
      destruct (Byte.to_N b0 =? 224)%N eqn:Ea;
        destruct (Byte.to_N b0 =? 237)%N eqn:Eb; boolprop; lia.
    - eapply (IH (length r2)); [subst n; simpl; lia | reflexivity | exact D]. }
  destruct (Codec.in_range 240 244 b0) eqn:E4; [|discriminate].
  destruct r0 as [|b1 [|b2 [|b3 r3]]]; try discriminate.
  destruct (Codec.in_range _ _ b1 && Codec.in_range 128 191 b2
            && Codec.in_range 128 191 b3)%bool eqn:E5; [|discriminate].
  destruct (Codec.utf_8_decode r3) as [t|] eqn:D; [|discriminate].
  intros [= <-]. apply valid_text_cons.
  - apply scalar_iff. unfold Codec.in_range, Codec.low6 in *.
    destruct (Byte.to_N b0 =? 240)%N eqn:Ea;
      destruct (Byte.to_N b0 =? 244)%N eqn:Eb; boolprop; lia.
  - eapply (IH (length r3)); [subst n; simpl; lia | reflexivity | exact D].
Qed.

Lemma Some_inj {A : Type} (a b : A) : Some a = Some b -> a = b.
Proof. congruence. Qed.

Ltac decide_ifs :=
  repeat match goal with
    | |- context [if (?a =? ?b)%N then _ else _] =>
        let E := fresh "E" in
        destruct (a =? b)%N eqn:E; cbv iota
    end;
  repeat match goal with
    | |- context [if ?b then _ else _] =>
        let E := fresh "E" in
        destruct b eqn:E; boolprop; try (exfalso; lia)
    end.

Ltac decode_step tail :=
  let r := fresh "r" in
  let Hr := fresh "Hr" in
  remember tail as r eqn:Hr;
  cbn [Codec.utf_8_decode]; unfold Codec.in_range, Codec.low6;
  decide_ifs; subst r; cbv beta iota; decide_ifs.

Lemma utf_8_decode_1 (b0 : byte) (r : bytes) :
  (Byte.to_N b0 < 128)%N ->
  Codec.utf_8_decode (b0 :: r)
  = option_map (cons (Byte.to_N b0)) (Codec.utf_8_decode r).
Proof. intros H0. decode_step r; reflexivity. Qed.

Lemma utf_8_decode_2 (b0 b1 : byte) (r : bytes) :
  (194 <= Byte.to_N b0 <= 223)%N ->
  (128 <= Byte.to_N b1 <= 191)%N ->
  Codec.utf_8_decode (b0 :: b1 :: r)
  = option_map (cons ((Byte.to_N b0 - 192) * 64 + (Byte.to_N b1 - 128))%N)
      (Codec.utf_8_decode r).
Proof. intros H0 H1. decode_step (b1 :: r); reflexivity. Qed.

Lemma utf_8_decode_3 (b0 b1 b2 : byte) (r : bytes) :
  (224 <= Byte.to_N b0 <= 239)%N ->
  (128 <= Byte.to_N b1 <= 191)%N ->
  (Byte.to_N b0 = 224 -> 160 <= Byte.to_N b1)%N ->
  (Byte.to_N b0 = 237 -> Byte.to_N b1 <= 159)%N ->
  (128 <= Byte.to_N b2 <= 191)%N ->
  Codec.utf_8_decode (b0 :: b1 :: b2 :: r)
  = option_map
      (cons ((Byte.to_N b0 - 224) * 4096 + (Byte.to_N b1 - 128) * 64
             + (Byte.to_N b2 - 128))%N)
      (Codec.utf_8_decode r).
Proof. intros H0 H1 Ha Hb H2. decode_step (b1 :: b2 :: r); reflexivity. Qed.

Lemma utf_8_decode_4 (b0 b1 b2 b3 : byte) (r : bytes) :
  (240 <= Byte.to_N b0 <= 244)%N ->
  (128 <= Byte.to_N b1 <= 191)%N ->
  (Byte.to_N b0 = 240 -> 144 <= Byte.to_N b1)%N ->
  (Byte.to_N b0 = 244 -> Byte.to_N b1 <= 143)%N ->
  (128 <= Byte.to_N b2 <= 191)%N ->
  (128 <= Byte.to_N b3 <= 191)%N ->
  Codec.utf_8_decode (b0 :: b1 :: b2 :: b3 :: r)
  = option_map
      (cons ((Byte.to_N b0 - 240) * 262144 + (Byte.to_N b1 - 128) * 4096
             + (Byte.to_N b2 - 128) * 64 + (Byte.to_N b3 - 128))%N)
      (Codec.utf_8_decode r).
Proof.
  intros H0 H1 Ha Hb H2 H3. decode_step (b1 :: b2 :: b3 :: r); reflexivity.
Qed.

(** Decoding what the encoder produced for one code point gives the code
    point back and goes on with the rest. *)
Lemma decode_encode_char (c : codepoint) (cb rest : bytes) :
  Codec.encode_char c = Some cb ->
  Codec.utf_8_decode (cb ++ rest)
  = option_map (cons c) (Codec.utf_8_decode rest).
Proof.
  unfold Codec.encode_char.
  destruct (Codec.scalar c) eqn:Hs; [|discriminate]. cbn [negb].
  apply scalar_iff in Hs.
  destruct (c <? 128)%N eqn:E1; [|destruct (c <? 2048)%N eqn:E2;
    [|destruct (c <? 65536)%N eqn:E3]];
    intros H; apply Some_inj in H; subst cb; boolprop; cbn [app].
  - rewrite utf_8_decode_1; rewrite !to_N_byte_of_N by lia;
      [reflexivity | lia].
  - rewrite utf_8_decode_2; rewrite !to_N_byte_of_N by lia;
      [f_equal; f_equal; lia | lia ..].
  - rewrite utf_8_decode_3; rewrite !to_N_byte_of_N by lia;
      [f_equal; f_equal; lia | lia ..].
  - rewrite utf_8_decode_4; rewrite !to_N_byte_of_N by lia;
      [f_equal; f_equal; lia | lia ..].
Qed.

Lemma encode_char_total (c : codepoint) :
  Codec.scalar c = true -> exists cb, Codec.encode_char c = Some cb.
Proof.
  intros Hs. unfold Codec.encode_char. rewrite Hs. cbn [negb].
  destruct (c <? 128)%N; [|destruct (c <? 2048)%N; [|destruct (c <? 65536)%N]];
    eexists; reflexivity.
Qed.

(** Valid text can be encoded, and decodes back to itself. *)
Lemma utf_8_roundtrip (s : str) :
  valid_text s ->
  exists bs, Codec.utf_8_encode s = Some bs /\ Codec.utf_8_decode bs = Some s.
Proof.
  induction s as [|c s IH]; intros Hv.
  - exists []. split; reflexivity.
  - destruct (encode_char_total c) as [cb Hcb]; [apply Hv; left; reflexivity|].
    destruct IH as (bs & He & Hd); [intros d Hd; apply Hv; right; exact Hd|].
    exists (cb ++ bs). split.
    + cbn [Codec.utf_8_encode]. rewrite Hcb, He. reflexivity.
    + rewrite (decode_encode_char c cb bs Hcb), Hd. reflexivity.
Qed.

Lemma translate_linesep_id (s : str) : Codec.translate_linesep s = s.
Proof.
  induction s as [|c s IH]; cbn [Codec.translate_linesep]; [reflexivity|].
  destruct (c =? 10)%N eqn:E.
  - apply N.eqb_eq in E. subst c. rewrite IH. reflexivity.
  - rewrite IH. reflexivity.
Qed.

(** Encoding distributes over concatenation, and undoes decoding. *)

Lemma utf_8_encode_app (a b : str) :
  Codec.utf_8_encode (a ++ b)
  = match Codec.utf_8_encode a, Codec.utf_8_encode b with
    | Some x, Some y => Some (x ++ y)
    | _, _ => None
    end.
Proof.
  induction a as [|c a IH]; cbn [app Codec.utf_8_encode].
  - destruct (Codec.utf_8_encode b); reflexivity.
  - rewrite IH. destruct (Codec.encode_char c) as [cb|]; [|reflexivity].
    destruct (Codec.utf_8_encode a) as [x|]; [|reflexivity].
    destruct (Codec.utf_8_encode b) as [y|]; [|reflexivity].
    rewrite app_assoc. reflexivity.
Qed.

Lemma utf_8_encode_cons (c : codepoint) (s : str) (cb bs : bytes) :
  Codec.encode_char c = Some cb ->
  Codec.utf_8_encode s = Some bs ->
  Codec.utf_8_encode (c :: s) = Some (cb ++ bs).
Proof. intros Hc Hs. cbn [Codec.utf_8_encode]. rewrite Hc, Hs. reflexivity. Qed.

Ltac bytes_back :=
  repeat f_equal;
  match goal with
  | |- byte_of_N ?e = ?b =>
      transitivity (byte_of_N (Byte.to_N b));
      [f_equal; lia | apply byte_of_N_to_N]
  end.

(** Encoding what the decoder returned gives the bytes back. *)
Lemma utf_8_decode_encode (bs : bytes) (s : str) :
  Codec.utf_8_decode bs = Some s -> Codec.utf_8_encode s = Some bs.
Proof.
  remember (length bs) as n eqn:Hn. revert bs Hn s.
  induction n as [n IH] using lt_wf_ind. intros bs Hn s.
  destruct bs as [|b0 r0]; cbn [Codec.utf_8_decode].
  { intros [= <-]. reflexivity. }
  pose proof (Byte.to_N_bounded b0) as B0.
  destruct (Byte.to_N b0 <? 128)%N eqn:E1.
  { destruct (Codec.utf_8_decode r0) as [t|] eqn:D; [|discriminate].
    intros [= <-]. boolprop.
    apply (utf_8_encode_cons _ _ [b0] r0).
    - unfold Codec.encode_char, Codec.scalar. decide_ifs.
      rewrite byte_of_N_to_N. reflexivity.
    - apply (IH (length r0)); [subst n; simpl; lia | reflexivity | exact D]. }
  destruct (Codec.in_range 194 223 b0) eqn:E2.
  { destruct r0 as [|b1 r1]; [discriminate|].
    destruct (Codec.in_range 128 191 b1) eqn:E3; [|discriminate].
    destruct (Codec.utf_8_decode r1) as [t|] eqn:D; [|discriminate].
    intros [= <-]. unfold Codec.in_range, Codec.low6 in *. boolprop.
    apply (utf_8_encode_cons _ _ [b0; b1] r1).
    - unfold Codec.encode_char, Codec.scalar. decide_ifs; bytes_back.
    - apply (IH (length r1)); [subst n; simpl; lia | reflexivity | exact D]. }
  destruct (Codec.in_range 224 239 b0) eqn:E3.
  { destruct r0 as [|b1 [|b2 r2]]; try discriminate.
    destruct (Codec.in_range _ _ b1 && Codec.in_range 128 191 b2)%bool eqn:E4;
      [|discriminate].
    destruct (Codec.utf_8_decode r2) as [t|] eqn:D; [|discriminate].
    intros [= <-]. unfold Codec.in_range, Codec.low6 in *.
    destruct (Byte.to_N b0 =? 224)%N eqn:Ea;
      destruct (Byte.to_N b0 =? 237)%N eqn:Eb; boolprop; try lia;
      (apply (utf_8_encode_cons _ _ [b0; b1; b2] r2);
       [ unfold Codec.encode_char, Codec.scalar; decide_ifs; bytes_back
       | apply (IH (length r2));
         [subst n; simpl; lia | reflexivity | exact D] ]). }
  destruct (Codec.in_range 240 244 b0) eqn:E4; [|discriminate].
  destruct r0 as [|b1 [|b2 [|b3 r3]]]; try discriminate.
  destruct (Codec.in_range _ _ b1 && Codec.in_range 128 191 b2
            && Codec.in_range 128 191 b3)%bool eqn:E5; [|discriminate].
  destruct (Codec.utf_8_decode r3) as [t|] eqn:D; [|discriminate].
  intros [= <-]. unfold Codec.in_range, Codec.low6 in *.
  destruct (Byte.to_N b0 =? 240)%N eqn:Ea;
    destruct (Byte.to_N b0 =? 244)%N eqn:Eb; boolprop; try lia;
    (apply (utf_8_encode_cons _ _ [b0; b1; b2; b3] r3);
     [ unfold Codec.encode_char, Codec.scalar; decide_ifs; bytes_back
     | apply (IH (length r3));
       [subst n; simpl; lia | reflexivity | exact D] ]).
Qed.

Lemma utf_8_encode_decode (s : str) (bs : bytes) :
  Codec.utf_8_encode s = Some bs -> Codec.utf_8_decode bs = Some s.
Proof.
  revert bs. induction s as [|c s IH]; intros bs; cbn [Codec.utf_8_encode].
  - intros [= <-]. reflexivity.
  - destruct (Codec.encode_char c) as [cb|] eqn:Hc; [|discriminate].
    destruct (Codec.utf_8_encode s) as [rest|]; [|discriminate].
    intros [= <-]. rewrite (decode_encode_char c cb rest Hc), (IH rest eq_refl).
    reflexivity.
Qed.

(** ** Stripping, lines and indentation *)

Lemma rstrip_prefix (s : str) :
  exists t, s = Py.rstrip s ++ t /\ only_whitespace t.
Proof.
  induction s as [|c s (t & Hs & Ht)]; cbn [Py.rstrip].
  - exists []. split; [reflexivity | intros c []].
  - destruct (Py.rstrip s) as [|d r] eqn:E.
    + destruct (Py.isspace_char c) eqn:Ec.
      * exists (c :: s). split; [reflexivity|].
        simpl in Hs. subst t. intros x [<- | Hx]; auto.
      * exists s. split; [reflexivity|]. simpl in Hs. subst t. exact Ht.
    + exists t. split; [|exact Ht]. rewrite Hs at 1. reflexivity.
Qed.

Lemma rstrip_only_whitespace (s : str) :
  only_whitespace s -> Py.rstrip s = [].
Proof.
  induction s as [|c s IH]; intros Hw; cbn [Py.rstrip]; [reflexivity|].
  rewrite IH by (intros x Hx; apply Hw; right; exact Hx).
  rewrite (Hw c) by (left; reflexivity). reflexivity.
Qed.

Lemma lstrip_only_whitespace (s : str) :
  only_whitespace s -> Py.lstrip s = [].
Proof.
  induction s as [|c s IH]; intros Hw; cbn [Py.lstrip]; [reflexivity|].
  rewrite (Hw c) by (left; reflexivity).
  apply IH. intros x Hx. apply Hw. right. exact Hx.
Qed.

Lemma rstrip_nil_inv (s : str) : Py.rstrip s = [] -> only_whitespace s.
Proof.
  intros E. destruct (rstrip_prefix s) as (t & Hs & Ht).
  rewrite E in Hs. simpl in Hs. subst t. exact Ht.
Qed.

Lemma lstrip_suffix (s : str) :
  exists t, s = t ++ Py.lstrip s /\ only_whitespace t.
Proof.
  induction s as [|c s (t & Hs & Ht)]; cbn [Py.lstrip].
  - exists []. split; [reflexivity | intros c []].
  - destruct (Py.isspace_char c) eqn:Ec.
    + exists (c :: t). split; [simpl; f_equal; exact Hs|].
      intros x [<- | Hx]; auto.
    + exists []. split; [reflexivity | intros x []].
Qed.

(** The default predicate of [textwrap.indent] selects the lines with a
    character that is not whitespace. *)
Lemma indent_predicate_false_iff (line : str) :
  Py.indent_predicate line = false <-> only_whitespace line.
Proof.
  unfold Py.indent_predicate, Py.strip. split.
  - intros H. destruct (Py.rstrip (Py.lstrip line)) eqn:E; [|discriminate].
    apply rstrip_nil_inv in E.
    destruct (lstrip_suffix line) as (t & Hl & Ht).
    rewrite Hl. intros c Hc. apply in_app_iff in Hc as [Hc | Hc]; auto.
  - intros Hw. rewrite lstrip_only_whitespace by exact Hw. reflexivity.
Qed.

Lemma indent_predicate_true_iff (line : str) :
  Py.indent_predicate line = true <-> ~ only_whitespace line.
Proof.
  rewrite <- indent_predicate_false_iff.
  destruct (Py.indent_predicate line); split; congruence.
Qed.

(** The lines, kept with their ends, make up the text. *)
Lemma splitlines_concat (s : str) : concat (Py.splitlines true s) = s.
Proof.
  remember (length s) as n eqn:Hn. revert s Hn.
  induction n as [n IH] using lt_wf_ind. intros s Hn.
  destruct s as [|c s']; [reflexivity|]. cbn [Py.splitlines].
  destruct (Py.islinebreak c).
  - destruct s' as [|d s'']; [reflexivity|].
    destruct ((c =? 13)%N && (d =? 10)%N)%bool; cbn [concat app]; f_equal.
    + f_equal. apply (IH (length s'')); [subst n; simpl; lia | reflexivity].
    + apply (IH (length (d :: s''))); [subst n; simpl; lia | reflexivity].
  - pose proof (IH (length s') ltac:(subst n; simpl; lia) s' eq_refl) as Hs'.
    destruct (Py.splitlines true s') as [|l ls].
    + simpl in Hs'. subst s'. reflexivity.
    + cbn [concat app] in *. rewrite Hs'. reflexivity.
Qed.

(** After a text that ends with a newline, the last line ends with that
    newline. *)
Lemma splitlines_snoc_newline (s : str) :
  exists ls l0, Py.splitlines true (s ++ [10%N]) = ls ++ [l0 ++ [10%N]].
Proof.
  remember (length s) as n eqn:Hn. revert s Hn.
  induction n as [n IH] using lt_wf_ind. intros s Hn.
  destruct s as [|c s'].
  - exists [], []. reflexivity.
  - cbn [app Py.splitlines]. destruct (Py.islinebreak c).
    + destruct s' as [|d s'']; cbn [app].
      * destruct ((c =? 13)%N && (10 =? 10)%N)%bool.
        -- exists [], [c]. reflexivity.
        -- exists [[c]], []. reflexivity.
      * destruct ((c =? 13)%N && (d =? 10)%N)%bool.
        -- destruct (IH (length s'') ltac:(subst n; simpl; lia) s'' eq_refl)
             as (ls & l0 & E).
           rewrite E. exists ([c; d] :: ls), l0. reflexivity.
        -- destruct (IH (length (d :: s'')) ltac:(subst n; simpl; lia)
                       (d :: s'') eq_refl) as (ls & l0 & E).
           cbn [app] in E. rewrite E. exists ([c] :: ls), l0. reflexivity.
    + destruct (IH (length s') ltac:(subst n; simpl; lia) s' eq_refl)
        as (ls & l0 & E).
      rewrite E. destruct ls as [|l ls]; cbn [app].
      * exists [], (c :: l0). reflexivity.
      * exists ((c :: l) :: ls), l0. reflexivity.
Qed.

(** Every line of a text that ends at a line boundary ends with a line
    break. *)
Lemma at_line_start_tail (c : codepoint) (s : str) :
  at_line_start (c :: s) -> s <> [] -> at_line_start s.
Proof.
  intros [E | (p & d & E & Hd)] Hs; [discriminate|].
  destruct p as [|x p]; simpl in E.
  - injection E as _ E. congruence.
  - injection E as _ E. right. exists p, d. auto.
Qed.

Lemma at_line_start_single (c : codepoint) :
  at_line_start [c] -> Py.islinebreak c = true.
Proof.
  intros [E | (p & d & E & Hd)]; [discriminate|].
  destruct p as [|x p]; simpl in E.
  - injection E as ->. exact Hd.
  - injection E as _ E. destruct p; discriminate.
Qed.

Lemma at_line_start_cons (c : codepoint) (s : str) :
  s <> [] -> at_line_start s -> at_line_start (c :: s).
Proof.
  intros Hs [E | (p & d & E & Hd)]; [congruence|].
  right. exists (c :: p), d. subst s. auto.
Qed.

Lemma splitlines_terminated (s : str) :
  at_line_start s ->
  Forall (fun l => l <> [] /\ at_line_start l) (Py.splitlines true s).
Proof.
  remember (length s) as n eqn:Hn. revert s Hn.
  induction n as [n IH] using lt_wf_ind. intros s Hn Hs.
  destruct s as [|c s']; [constructor|]. cbn [Py.splitlines].
  destruct (Py.islinebreak c) eqn:Ec.
  - destruct s' as [|d s''].
    + constructor; [|constructor]. split; [discriminate|].
      right. exists [], c. auto.
    + pose proof (at_line_start_tail _ _ Hs ltac:(discriminate)) as Hs'.
      destruct ((c =? 13)%N && (d =? 10)%N)%bool eqn:Ecd.
      * constructor.
        -- split; [discriminate|]. right. exists [c], d. split; auto.
           boolprop. subst d. reflexivity.
        -- apply (IH (length s'')); [subst n; simpl; lia | reflexivity|].
           destruct s'' as [|e s3]; [left; reflexivity|].
           apply (at_line_start_tail d); [exact Hs' | discriminate].
      * constructor.
        -- split; [discriminate|]. right. exists [], c. auto.
        -- apply (IH (length (d :: s''))); [subst n; simpl; lia | reflexivity|].
           exact Hs'.
  - destruct s' as [|d s''].
    + apply at_line_start_single in Hs. congruence.
    + pose proof (at_line_start_tail _ _ Hs ltac:(discriminate)) as Hs'.
      pose proof (IH (length (d :: s'')) ltac:(subst n; simpl; lia)
                    (d :: s'') eq_refl Hs') as HF.
      pose proof (splitlines_concat (d :: s'')) as Hc.
      destruct (Py.splitlines true (d :: s'')) as [|l ls]; [discriminate|].
      inversion HF as [|? ? [Hl1 Hl2] HF']; subst.
      constructor; [|exact HF'].
      split; [discriminate|]. apply at_line_start_cons; auto.
Qed.

Lemma In_indent (c : codepoint) (text prefix : str) :
  In c (Py.indent text prefix) -> In c prefix \/ In c text.
Proof.
  unfold Py.indent, Py.join. intros H.
  apply in_concat in H as (l' & Hl' & Hc).
  apply in_map_iff in Hl' as (l & <- & Hl).
  assert (Hin : forall x, In x l -> In x text).
  { intros x Hx. rewrite <- (splitlines_concat text).
    apply in_concat. exists l. auto. }
  destruct (Py.indent_predicate l); auto.
  apply in_app_iff in Hc as [Hc | Hc]; auto.
Qed.

(** ** Universal newlines *)

Lemma universal_newlines_no_cr (s : str) : no_cr (Codec.universal_newlines s).
Proof.
  remember (length s) as n eqn:Hn. revert s Hn.
  induction n as [n IH] using lt_wf_ind. intros s Hn.
  destruct s as [|c s']; cbn [Codec.universal_newlines]; [intros []|].
  destruct (c =? 13)%N eqn:Ec.
  - destruct s' as [|d s'']; [intros [H | []]; discriminate|].
    destruct (d =? 10)%N; intros [H | H]; try discriminate; revert H.
    + apply (IH (length s'')); [subst n; simpl; lia | reflexivity].
    + apply (IH (length (d :: s''))); [subst n; simpl; lia | reflexivity].
  - apply N.eqb_neq in Ec. intros [H | H]; [congruence|]. revert H.
    apply (IH (length s')); [subst n; simpl; lia | reflexivity].
Qed.

Lemma universal_newlines_app_no_cr (a b : str) :
  no_cr a ->
  Codec.universal_newlines (a ++ b) = a ++ Codec.universal_newlines b.
Proof.
  induction a as [|c a IH]; intros Ha; [reflexivity|].
  cbn [app Codec.universal_newlines].
  destruct (c =? 13)%N eqn:Ec.
  - apply N.eqb_eq in Ec. exfalso. apply Ha. left. auto.
  - f_equal. apply IH. intros H. apply Ha. right. exact H.
Qed.

Lemma universal_newlines_id (s : str) :
  no_cr s -> Codec.universal_newlines s = s.
Proof.
  intros H. rewrite <- (app_nil_r s) at 1.
  rewrite universal_newlines_app_no_cr by exact H. apply app_nil_r.
Qed.

Lemma universal_newlines_app_lf (a b : str) :
  Codec.universal_newlines ((a ++ [10%N]) ++ b)
  = Codec.universal_newlines (a ++ [10%N]) ++ Codec.universal_newlines b.
Proof.
  remember (length a) as n eqn:Hn. revert a Hn.
  induction n as [n IH] using lt_wf_ind. intros a Hn.
  destruct a as [|c a']; [reflexivity|].
  cbn [app Codec.universal_newlines].
  destruct (c =? 13)%N.
  - destruct a' as [|d a'']; [reflexivity|]. cbn [app].
    destruct (d =? 10)%N; cbn [app]; f_equal.
    + apply (IH (length a'')); [subst n; simpl; lia | reflexivity].
    + apply (IH (length (d :: a'')) ltac:(subst n; simpl; lia) (d :: a'')).
      reflexivity.
  - cbn [app]. f_equal.
    apply (IH (length a')); [subst n; simpl; lia | reflexivity].
Qed.

Lemma universal_newlines_snoc_lf (a : str) :
  exists a', Codec.universal_newlines (a ++ [10%N]) = a' ++ [10%N].
Proof.
  remember (length a) as n eqn:Hn. revert a Hn.
  induction n as [n IH] using lt_wf_ind. intros a Hn.
  destruct a as [|c a']; [exists []; reflexivity|].
  cbn [app Codec.universal_newlines].
  destruct (c =? 13)%N.
  - destruct a' as [|d a'']; [exists []; reflexivity|]. cbn [app].
    destruct (d =? 10)%N.
    + destruct (IH (length a'') ltac:(subst n; simpl; lia) a'' eq_refl)
        as [x E].
      rewrite E. exists (10%N :: x). reflexivity.
    + destruct (IH (length (d :: a'')) ltac:(subst n; simpl; lia)
                  (d :: a'') eq_refl) as [x E].
      cbn [app] in E. rewrite E. exists (10%N :: x). reflexivity.
  - destruct (IH (length a') ltac:(subst n; simpl; lia) a' eq_refl) as [x E].
    rewrite E. exists (c :: x). reflexivity.
Qed.

Lemma In_universal_newlines (c : codepoint) (s : str) :
  In c (Codec.universal_newlines s) -> c = 10%N \/ In c s.
Proof.
  remember (length s) as n eqn:Hn. revert s Hn.
  induction n as [n IH] using lt_wf_ind. intros s Hn.
  destruct s as [|x s']; cbn [Codec.universal_newlines]; [intros []|].
  destruct (x =? 13)%N.
  - intros [H | H]; [auto|].
    destruct s' as [|d s'']; [destruct H|].
    destruct (d =? 10)%N.
    + destruct (IH (length s'') ltac:(subst n; simpl; lia) s'' eq_refl H);
        auto. right. right. right. assumption.
    + destruct (IH (length (d :: s'')) ltac:(subst n; simpl; lia)
                  (d :: s'') eq_refl H); auto.
      right. right. assumption.
  - intros [H | H]; [right; left; exact H|].
    destruct (IH (length s') ltac:(subst n; simpl; lia) s' eq_refl H); auto.
    right. right. assumption.
Qed.

Lemma universal_newlines_valid (s : str) :
  valid_text s -> valid_text (Codec.universal_newlines s).
Proof.
  intros Hv c Hc. apply In_universal_newlines in Hc as [-> | Hc]; auto.
Qed.

(** A text without newline that starts the translated text already
    starts the raw text, and one that occurs in the translated text
    occurs in the raw text. *)
Lemma startswith_universal_newlines (sub s : str) :
  ~ In 10%N sub ->
  Py.startswith (Codec.universal_newlines s) sub = true ->
  Py.startswith s sub = true.
Proof.
  revert s. induction sub as [|p sub IH]; intros s Hsub; [reflexivity|].
  destruct s as [|c s']; cbn [Codec.universal_newlines Py.startswith];
    [discriminate|].
  destruct (c =? 13)%N eqn:Ec; cbn [Py.startswith].
  - intros H. boolprop. exfalso. apply Hsub. left. auto.
  - intros H. apply andb_true_iff in H as [H1 H2]. rewrite H1. simpl.
    apply IH; [|exact H2]. intros Hin. apply Hsub. right. exact Hin.
Qed.

Lemma startswith_skipn_occurs (sub s : str) (k : nat) :
  Py.startswith (skipn k s) sub = true -> occurs sub s.
Proof.
  intros H. apply startswith_true_iff in H as [post Hp].
  exists (len (firstn k s)), (firstn k s), post.
  split; [|reflexivity]. rewrite <- Hp. symmetry. apply firstn_skipn.
Qed.

Lemma occurs_cons (sub s : str) (c : codepoint) :
  occurs sub s -> occurs sub (c :: s).
Proof.
  intros (i & pre & post & -> & <-).
  exists (len (c :: pre)), (c :: pre), post. split; reflexivity.
Qed.

Lemma occurs_universal_newlines (sub s : str) :
  ~ In 10%N sub -> sub <> [] ->
  occurs sub (Codec.universal_newlines s) -> occurs sub s.
Proof.
  intros Hsub Hne (i & Hocc). apply occurs_at_iff in Hocc as [_ Hocc].
  remember (Z.to_nat i) as k eqn:Hk. clear Hk i. revert k Hocc.
  remember (length s) as n eqn:Hn. revert s Hn.
  induction n as [n IH] using lt_wf_ind. intros s Hn k Hocc.
  destruct k as [|k].
  { apply (startswith_skipn_occurs sub s 0). simpl in *.
    apply startswith_universal_newlines; assumption. }
  destruct s as [|c s'].
  { simpl in Hocc. destruct sub; [congruence | discriminate]. }
  cbn [Codec.universal_newlines] in Hocc.
  destruct (c =? 13)%N.
  - cbn [skipn] in Hocc. destruct s' as [|d s''].
    + destruct k; simpl in Hocc; destruct sub; congruence || discriminate.
    + destruct (d =? 10)%N.
      * apply occurs_cons, occurs_cons.
        apply (IH (length s'') ltac:(subst n; simpl; lia) s'' eq_refl k Hocc).
      * apply occurs_cons.
        apply (IH (length (d :: s'')) ltac:(subst n; simpl; lia)
                 (d :: s'') eq_refl k Hocc).
  - cbn [skipn] in Hocc. apply occurs_cons.
    apply (IH (length s') ltac:(subst n; simpl; lia) s' eq_refl k Hocc).
Qed.

(** ** The formatted block *)

Lemma format_help_eq (decoded : str) :
  format_help decoded
  = py "\nOutput of ``nirw-search --help``::\n\n"
    ++ Py.indent (Py.rstrip decoded ++ py "\n\n") (py "   ").
Proof. reflexivity. Qed.

Lemma indent_snoc_newline (text prefix : str) :
  exists t, Py.indent (text ++ [10%N]) prefix = t ++ [10%N].
Proof.
  unfold Py.indent, Py.join.
  destruct (splitlines_snoc_newline text) as (ls & l0 & E). rewrite E.
  rewrite map_app, concat_app. cbn [map concat].
  destruct (Py.indent_predicate (l0 ++ [10%N])).
  - eexists. rewrite app_nil_r, !app_assoc. reflexivity.
  - eexists. rewrite app_nil_r, !app_assoc. reflexivity.
Qed.

Lemma format_help_ends_newline (decoded : str) :
  exists t, format_help decoded = t ++ [10%N].
Proof.
  rewrite format_help_eq.
  replace (Py.rstrip decoded ++ py "\n\n")
    with ((Py.rstrip decoded ++ [10%N]) ++ [10%N])
    by (rewrite <- app_assoc; reflexivity).
  destruct (indent_snoc_newline (Py.rstrip decoded ++ [10%N]) (py "   "))
    as [t E].
  rewrite E. eexists. rewrite app_assoc. reflexivity.
Qed.

Lemma format_help_starts_newline (decoded : str) :
  exists t, format_help decoded = 10%N :: t.
Proof. rewrite format_help_eq. eexists. reflexivity. Qed.

Lemma format_help_valid (decoded : str) :
  valid_text decoded -> valid_text (format_help decoded).
Proof.
  intros Hv. rewrite format_help_eq. apply valid_text_app. split.
  - intros c Hc. vm_compute in Hc.
    repeat (destruct Hc as [<- | Hc]; [reflexivity|]). destruct Hc.
  - intros c Hc. apply In_indent in Hc as [Hc | Hc].
    + vm_compute in Hc.
      repeat (destruct Hc as [<- | Hc]; [reflexivity|]). destruct Hc.
    + apply in_app_iff in Hc as [Hc | Hc].
      * apply Hv. destruct (rstrip_prefix decoded) as (t & Hd & _).
        rewrite Hd. apply in_app_iff. auto.
      * vm_compute in Hc.
        repeat (destruct Hc as [<- | Hc]; [reflexivity|]). destruct Hc.
Qed.

(** Lines behind a newline, and the lines of an indented text. *)

Lemma splitlines_head (d : codepoint) (s : str) :
  exists l ls, Py.splitlines true (d :: s) = (d :: l) :: ls.
Proof.
  cbn [Py.splitlines]. destruct (Py.islinebreak d).
  - destruct s as [|e s']; [eexists _, _; reflexivity|].
    destruct ((d =? 13)%N && (e =? 10)%N)%bool; eexists _, _; reflexivity.
  - destruct (Py.splitlines true s); eexists _, _; reflexivity.
Qed.

Lemma splitlines_app_newline (a z : str) :
  Py.splitlines true ((a ++ [10%N]) ++ z)
  = Py.splitlines true (a ++ [10%N]) ++ Py.splitlines true z.
Proof.
  remember (length a) as n eqn:Hn. revert a Hn.
  induction n as [n IH] using lt_wf_ind. intros a Hn.
  destruct a as [|c a'].
  { cbn [app Py.splitlines]. change (Py.islinebreak 10%N) with true.
    cbv iota. destruct z; reflexivity. }
  cbn [app Py.splitlines]. destruct (Py.islinebreak c).
  - destruct a' as [|d a'']; cbn [app].
    + rewrite N.eqb_refl, andb_true_r. destruct (c =? 13)%N; [reflexivity|].
      cbn [app]. f_equal.
      apply (IH 0%nat ltac:(subst n; simpl; lia) [] eq_refl).
    + destruct ((c =? 13)%N && (d =? 10)%N)%bool; cbn [app]; f_equal.
      * apply (IH (length a'') ltac:(subst n; simpl; lia) a'' eq_refl).
      * apply (IH (length (d :: a'')) ltac:(subst n; simpl; lia)
                 (d :: a'') eq_refl).
  - rewrite (IH (length a') ltac:(subst n; simpl; lia) a' eq_refl).
    destruct (splitlines_snoc_newline a') as (ls & l0 & E). rewrite E.
    destruct ls; reflexivity.
Qed.


Lemma islinebreak_isspace (c : codepoint) :
  Py.islinebreak c = true -> Py.isspace_char c = true.
Proof.
  unfold Py.islinebreak, Py.isspace_char. intros H. boolprop;
    repeat match goal with
      | |- (_ || _)%bool = true => apply orb_true_iff
      end;
    repeat rewrite ?orb_true_iff, ?andb_true_iff, ?N.leb_le, ?N.eqb_eq;
    lia.
Qed.

Lemma indent_predicate_linebreaks (c : codepoint) (rest : str) :
  Py.islinebreak c = true ->
  only_whitespace rest ->
  Py.indent_predicate (c :: rest) = false.
Proof.
  intros Hc Hr. apply indent_predicate_false_iff.
  intros x [<- | Hx]; [apply islinebreak_isspace; exact Hc | auto].
Qed.

Section IndentLines.

Variable prefix : str.
Hypothesis prefix_plain : forall c, In c prefix -> Py.islinebreak c = false.

(** Characters that are no line breaks, put in front of a text, join its
    first line. *)
Lemma splitlines_prepend (q y : str) :
  (forall c, In c q -> Py.islinebreak c = false) ->
  y <> [] ->
  exists hd tl,
    Py.splitlines true y = hd :: tl /\
    Py.splitlines true (q ++ y) = (q ++ hd) :: tl.
Proof.
  intros Hq Hy. induction q as [|c q IH].
  - destruct y as [|d y']; [congruence|].
    destruct (splitlines_head d y') as (l & ls & E).
    exists (d :: l), ls. split; exact E.
  - destruct IH as (hd & tl & E1 & E2);
      [intros x Hx; apply Hq; right; exact Hx|].
    exists hd, tl. split; [exact E1|].
    cbn [app Py.splitlines]. rewrite (Hq c) by (left; reflexivity).
    rewrite E2. reflexivity.
Qed.

Lemma indent_line_shape (l : str) :
  exists q, indent_line prefix l = q ++ l /\
            (forall c, In c q -> Py.islinebreak c = false).
Proof.
  unfold indent_line. destruct (Py.indent_predicate l).
  - exists prefix. split; [reflexivity | exact prefix_plain].
  - exists []. split; [reflexivity | intros c []].
Qed.

Lemma indent_splitlines_aux (s : str) :
  Py.splitlines true (concat (map (indent_line prefix) (Py.splitlines true s)))
  = map (indent_line prefix) (Py.splitlines true s).
Proof.
  remember (length s) as n eqn:Hn. revert s Hn.
  induction n as [n IH] using lt_wf_ind. intros s Hn.
  destruct s as [|c s']; [reflexivity|].
  cbn [Py.splitlines]. destruct (Py.islinebreak c) eqn:Ec.
  - destruct s' as [|d s''].
    + cbn [map concat]. unfold indent_line at 1 2.
      rewrite (indent_predicate_linebreaks c []) by (auto; intros x []).
      cbn [app Py.splitlines]. rewrite Ec. reflexivity.
    + destruct ((c =? 13)%N && (d =? 10)%N)%bool eqn:Ecd.
      * cbn [map concat]. unfold indent_line at 1 3.
        assert (Hd : Py.islinebreak d = true) by (boolprop; subst; reflexivity).
        rewrite (indent_predicate_linebreaks c [d])
          by (auto; intros x [<- | []]; apply islinebreak_isspace; exact Hd).
        cbn [app Py.splitlines]. rewrite Ec, Ecd. f_equal.
        apply (IH (length s'') ltac:(subst n; simpl; lia) s'' eq_refl).
      * cbn [map concat]. unfold indent_line at 1 3.
        rewrite (indent_predicate_linebreaks c []) by (auto; intros x []).
        pose proof (IH (length (d :: s'')) ltac:(subst n; simpl; lia)
                      (d :: s'') eq_refl) as IH'.
        destruct (splitlines_head d s'') as (l & ls & E).
        rewrite E in *. cbn [map concat] in *.
        destruct (indent_line_shape (d :: l)) as (q & Hq & Hqp).
        rewrite Hq in *.
        cbn [app Py.splitlines]. rewrite Ec.
        destruct q as [|e q']; cbn [app] in *.
        -- rewrite Ecd. f_equal. exact IH'.
        -- assert (He : (e =? 10)%N = false).
           { apply N.eqb_neq. intros ->.
             specialize (Hqp 10%N ltac:(left; reflexivity)). discriminate. }
           rewrite He, andb_false_r. f_equal. exact IH'.
  - pose proof (IH (length s') ltac:(subst n; simpl; lia) s' eq_refl) as IH'.
    destruct (Py.splitlines true s') as [|x xs] eqn:E.
    + cbn [map concat]. rewrite app_nil_r.
      destruct (indent_line_shape [c]) as (q & Hq & Hqp). rewrite Hq.
      destruct (splitlines_prepend q [c] Hqp ltac:(discriminate))
        as (hd & tl & E1 & E2).
      rewrite E2. cbn [Py.splitlines] in E1. rewrite Ec in E1.
      injection E1 as <- <-. reflexivity.
    + cbn [map concat] in *.
      assert (Hx : x <> []).
      { destruct s' as [|d s'']; [discriminate|].
        destruct (splitlines_head d s'') as (l & ls & E').
        rewrite E' in E. injection E as <- _. discriminate. }
      destruct (indent_line_shape x) as (q0 & Hq0 & Hq0p).
      destruct (indent_line_shape (c :: x)) as (q1 & Hq1 & Hq1p).
      rewrite Hq0 in IH'. rewrite Hq1.
      set (R := concat (map (indent_line prefix) xs)) in *.
      destruct (splitlines_prepend q0 (x ++ R) Hq0p
                  ltac:(destruct x; [congruence | discriminate]))
        as (hd & tl & E1 & E2).
      rewrite <- app_assoc in IH'. rewrite E2 in IH'.
      injection IH' as Hhd Htl. apply app_inv_head in Hhd. subst hd tl.
      destruct (splitlines_prepend (q1 ++ [c]) (x ++ R)) as (hd & tl & E3 & E4).
      * intros y Hy. apply in_app_iff in Hy as [Hy | [<- | []]]; auto.
      * destruct x; [congruence | discriminate].
      * rewrite E1 in E3. injection E3 as <- <-.
        replace ((q1 ++ c :: x) ++ R) with ((q1 ++ [c]) ++ x ++ R)
          by (rewrite <- !app_assoc; reflexivity).
        rewrite E4, <- app_assoc. reflexivity.
Qed.

End IndentLines.

(** ** Occurrences in concatenated texts *)

Lemma occurs_at_slice (sub s : str) (i : Z) :
  occurs_at sub s i <->
  exists k, i = Z.of_nat k /\ (k + length sub <= length s)%nat /\
            firstn (length sub) (skipn k s) = sub.
Proof.
  split.
  - intros (pre & post & -> & <-). exists (length pre).
    split; [reflexivity|]. split.
    + rewrite !length_app. lia.
    + rewrite skipn_app, skipn_all, Nat.sub_diag. cbn [app skipn].
      rewrite firstn_app, firstn_all, Nat.sub_diag. cbn [firstn].
      apply app_nil_r.
  - intros (k & -> & Hk & E).
    exists (firstn k s), (skipn (length sub) (skipn k s)). split.
    + rewrite <- (firstn_skipn k s) at 1. f_equal.
      transitivity (firstn (length sub) (skipn k s)
                    ++ skipn (length sub) (skipn k s)).
      * symmetry. apply firstn_skipn.
      * f_equal. exact E.
    + unfold len. rewrite length_firstn. lia.
Qed.

Lemma occurs_at_app_l (sub a c : str) (j : Z) :
  occurs_at sub a j -> occurs_at sub (a ++ c) j.
Proof.
  intros (pre & post & -> & <-). exists pre, (post ++ c).
  split; [|reflexivity]. rewrite <- !app_assoc. reflexivity.
Qed.

Lemma occurs_at_app_r (sub a c : str) (j : Z) :
  occurs_at sub c j -> occurs_at sub (a ++ c) (len a + j).
Proof.
  intros (pre & post & -> & <-). exists (a ++ pre), post.
  split; [|apply len_app]. rewrite <- !app_assoc. reflexivity.
Qed.

Lemma occurs_at_app_inv_l (sub a c : str) (j : Z) :
  occurs_at sub (a ++ c) j -> j + len sub <= len a -> occurs_at sub a j.
Proof.
  intros H Hj. apply occurs_at_slice in H as (k & -> & Hk & E).
  apply occurs_at_slice. exists k. unfold len in Hj.
  split; [reflexivity|]. split; [lia|].
  rewrite skipn_app, firstn_app in E.
  replace (length sub - length (skipn k a))%nat with 0%nat in E
    by (rewrite length_skipn; lia).
  cbn [firstn] in E. rewrite app_nil_r in E. exact E.
Qed.

Lemma occurs_at_app_inv_r (sub a c : str) (j : Z) :
  occurs_at sub (a ++ c) j -> len a <= j -> occurs_at sub c (j - len a).
Proof.
  intros H Hj. apply occurs_at_slice in H as (k & -> & Hk & E).
  apply occurs_at_slice. unfold len in *. exists (k - length a)%nat.
  rewrite length_app in Hk.
  split; [lia|]. split; [lia|].
  rewrite skipn_app in E. rewrite skipn_all2 in E by lia. exact E.
Qed.

Lemma occurs_at_nth (sub s : str) (i : Z) (j : nat) :
  occurs_at sub s i -> (j < length sub)%nat ->
  nth_error s (Z.to_nat i + j) = nth_error sub j.
Proof.
  intros (pre & post & -> & <-) Hj. unfold len. rewrite Nat2Z.id.
  rewrite nth_error_app2 by lia.
  replace (length pre + j - length pre)%nat with j by lia.
  apply nth_error_app1. exact Hj.
Qed.

(** Where two texts occur [k] apart, they agree on what they share. *)
Lemma overlap_agrees (x y s : str) (a e : Z) (k j : nat) :
  occurs_at x s a -> occurs_at y s e ->
  Z.to_nat e = (Z.to_nat a + k)%nat ->
  (k + j < length x)%nat -> (j < length y)%nat ->
  nth_error x (k + j) = nth_error y j.
Proof.
  intros Hx Hy He Hkx Hjy.
  rewrite <- (occurs_at_nth x s a (k + j) Hx Hkx).
  rewrite <- (occurs_at_nth y s e j Hy Hjy).
  f_equal. lia.
Qed.

(** The end marker cannot start inside an occurrence of the begin
    marker. *)
Lemma markers_do_not_overlap (s : str) (b e : Z) :
  occurs_at help_begin_text s b -> occurs_at help_end_text s e ->
  b <= e -> b + len help_begin_text <= e.
Proof.
  intros Hb He Hle.
  destruct (Z_le_gt_dec (b + len help_begin_text) e) as [|Hgt]; [assumption|].
  exfalso.
  pose proof (occurs_at_range _ _ _ Hb) as [Hb0 _].
  remember (Z.to_nat (e - b)) as k eqn:Hk.
  assert (Hek : Z.to_nat e = (Z.to_nat b + k)%nat) by lia.
  assert (Hk18 : (k < 18)%nat).
  { change (len help_begin_text) with 18 in Hgt. lia. }
  pose proof (fun j => overlap_agrees _ _ s b e k j Hb He Hek) as Hag.
  clear - Hag Hk18.
  do 18 (destruct k as [|k];
         [first [ specialize (Hag 0%nat ltac:(vm_compute; lia)
                                ltac:(vm_compute; lia)); discriminate Hag
                | specialize (Hag 1%nat ltac:(vm_compute; lia)
                                ltac:(vm_compute; lia)); discriminate Hag
                | specialize (Hag 3%nat ltac:(vm_compute; lia)
                                ltac:(vm_compute; lia)); discriminate Hag ]|]).
  lia.
Qed.

(** ** Slices with an index inside the text *)

Lemma slice_to_firstn (s : str) (k : Z) :
  0 <= k <= len s -> Py.slice_to s k = firstn (Z.to_nat k) s.
Proof.
  intros Hk. unfold Py.slice_to, Py.adjust_index.
  destruct (k <? 0) eqn:E; [lia|]. rewrite Z.min_l by lia. reflexivity.
Qed.

Lemma slice_from_skipn (s : str) (k : Z) :
  0 <= k <= len s -> Py.slice_from s k = skipn (Z.to_nat k) s.
Proof.
  intros Hk. unfold Py.slice_from, Py.adjust_index.
  destruct (k <? 0) eqn:E; [lia|]. rewrite Z.min_l by lia. reflexivity.
Qed.

(** ** Running the script *)

Lemma main_launch_fails (w : world) :
  help_command w = LaunchFails -> main w = (Raise OSError, w).
Proof.
  intros H. unfold main, bind, subprocess_run. rewrite H. reflexivity.
Qed.

Lemma main_output_not_utf8 (w : world) (status : Z) (out : bytes) :
  help_command w = Exits status out ->
  Codec.utf_8_decode out = None ->
  main w = (Raise UnicodeDecodeError, w).
Proof.
  intros H D. unfold main, bind, subprocess_run, decode. rewrite H.
  cbn [stdout]. rewrite D. reflexivity.
Qed.

Lemma main_no_document (w : world) (block : str) :
  formatted_block w = Some block ->
  document_text w = None ->
  exists e, main w = (Raise e, w).
Proof.
  unfold formatted_block, document_text, main, bind, subprocess_run, decode,
    read_readme.
  destruct (help_command w) as [|status out]; [discriminate|]. cbn [stdout].
  destruct (Codec.utf_8_decode out) as [d|]; [|discriminate].
  intros _. unfold ret.
  destruct (readme_rst w) as [bs|]; [|eexists; reflexivity].
  destruct (Codec.utf_8_decode bs); [discriminate | eexists; reflexivity].
Qed.

(** With the block formatted and the document read, the script is down
    to the marker search and the splice. *)
Lemma main_run (w : world) (block data : str) :
  formatted_block w = Some block ->
  document_text w = Some data ->
  main w =
  (if Py.find data help_begin_text 0 =? -1 then
     print (error_not_found help_begin_text)
   else if Py.find data help_end_text (Py.find data help_begin_text 0) =? -1
   then print (error_not_found help_end_text)
   else
     write_readme
       (Py.slice_to data
          (Py.find data help_begin_text 0 + len help_begin_text + 1)
        ++ block
        ++ Py.slice_from data
             (Py.find data help_end_text (Py.find data help_begin_text 0)))) w.
Proof.
  unfold formatted_block, document_text, main, bind, subprocess_run, decode,
    read_readme.
  destruct (help_command w) as [|status out]; [discriminate|]. cbn [stdout].
  destruct (Codec.utf_8_decode out) as [d|]; [|discriminate].
  unfold ret. cbn [option_map].
  destruct (readme_rst w) as [bs|]; [|discriminate].
  destruct (Codec.utf_8_decode bs) as [raw|]; [|discriminate].
  cbn [option_map]. intros [= <-] [= <-]. reflexivity.
Qed.

(** ** The marker search on a valid document *)

Lemma valid_document_found (data : str) :
  valid_document data ->
  first_occurrence_from help_begin_text data 0
    (Py.find data help_begin_text 0) /\
  first_occurrence_from help_end_text data
    (Py.find data help_begin_text 0) (end_marker_position data) /\
  Py.find data help_begin_text 0 <> -1 /\
  end_marker_position data <> -1.
Proof.
  intros (i & j & Hi & Hij & Hj). unfold end_marker_position.
  pose proof (len_nonneg data) as Hl.
  pose proof (occurs_at_range _ _ _ Hi) as [Hi0 _].
  assert (Hb : Py.find data help_begin_text 0 <> -1).
  { intros E. apply find_minus_one_iff in E. apply E. exists i. exact Hi. }
  pose proof (find_found data help_begin_text 0 _ ltac:(lia) eq_refl Hb)
    as Hfb.
  set (b := Py.find data help_begin_text 0) in *.
  destruct Hfb as (Hb0 & Hbo & Hbn).
  pose proof (occurs_at_range _ _ _ Hbo) as [_ Hbr].
  pose proof (len_nonneg help_begin_text) as HlB.
  assert (Hbi : b <= i).
  { destruct (Z_le_gt_dec b i); [assumption|].
    exfalso. apply (Hbn i); [lia | exact Hi]. }
  assert (He : Py.find data help_end_text b <> -1).
  { intros E.
    exact (find_not_found data help_end_text b ltac:(lia) E j ltac:(lia) Hj). }
  pose proof (find_found data help_end_text b _ ltac:(lia) eq_refl He) as Hfe.
  repeat split; try assumption; apply Hfe.
Qed.

Lemma valid_document_iff (data : str) :
  valid_document data <->
  Py.find data help_begin_text 0 <> -1 /\ end_marker_position data <> -1.
Proof.
  split.
  - intros H. apply valid_document_found in H. tauto.
  - intros [Hb He]. pose proof (len_nonneg data) as Hl.
    pose proof (find_found data help_begin_text 0 _ ltac:(lia) eq_refl Hb)
      as (Hb0 & Hbo & _).
    pose proof (occurs_at_range _ _ _ Hbo) as [_ Hbr].
    pose proof (len_nonneg help_begin_text) as HlB.
    unfold end_marker_position in He.
    pose proof (find_found data help_end_text (Py.find data help_begin_text 0)
                  _ ltac:(lia) eq_refl He) as (He0 & Heo & _).
    eexists _, _. eauto.
Qed.

(** Positions of the splice on a valid document. *)
Lemma splice_positions (data : str) :
  valid_document data ->
  0 <= Py.find data help_begin_text 0 /\
  splice_point data = Py.find data help_begin_text 0 + 19 /\
  Py.find data help_begin_text 0 + 18 <= end_marker_position data /\
  end_marker_position data + 16 <= len data.
Proof.
  intros Hv.
  destruct (valid_document_found data Hv)
    as ((Hb0 & Hbo & _) & (He0 & Heo & _) & _ & _).
  pose proof (markers_do_not_overlap data _ _ Hbo Heo He0) as Hov.
  pose proof (occurs_at_range _ _ _ Heo) as [_ Her].
  change (len help_begin_text) with 18 in Hov.
  change (len help_end_text) with 16 in Her.
  unfold splice_point.
  change (len (help_begin_text ++ py "\n")) with 19.
  repeat split; lia.
Qed.

(** The expression the script writes is the splice. *)
Lemma data_update_spliced (data block : str) :
  valid_document data ->
  Py.slice_to data (Py.find data help_begin_text 0 + len help_begin_text + 1)
  ++ block
  ++ Py.slice_from data
       (Py.find data help_end_text (Py.find data help_begin_text 0))
  = spliced data block.
Proof.
  intros Hv. destruct (splice_positions data Hv) as (Hb & Hsp & Hbe & Hel).
  unfold spliced. fold (end_marker_position data).
  change (len help_begin_text) with 18.
  rewrite slice_to_firstn, slice_from_skipn by lia.
  rewrite Hsp. f_equal. f_equal. f_equal. lia.
Qed.

Lemma formatted_block_valid (w : world) (block : str) :
  formatted_block w = Some block -> valid_text block.
Proof.
  unfold formatted_block. destruct (help_command w) as [|st out]; [discriminate|].
  destruct (Codec.utf_8_decode out) as [d|] eqn:D; [|discriminate].
  intros [= <-]. apply format_help_valid. eapply utf_8_decode_valid; eauto.
Qed.

Lemma formatted_block_ends_newline (w : world) (block : str) :
  formatted_block w = Some block -> exists t, block = t ++ [10%N].
Proof.
  unfold formatted_block.
  destruct (help_command w) as [|st out]; [discriminate|].
  destruct (Codec.utf_8_decode out) as [d|]; [|discriminate].
  intros [= <-]. apply format_help_ends_newline.
Qed.

Lemma document_text_valid (w : world) (data : str) :
  document_text w = Some data -> valid_text data /\ no_cr data.
Proof.
  unfold document_text. destruct (readme_rst w) as [bs|]; [|discriminate].
  destruct (Codec.utf_8_decode bs) as [raw|] eqn:D; [|discriminate].
  intros [= <-]. split.
  - apply universal_newlines_valid. eapply utf_8_decode_valid; eauto.
  - apply universal_newlines_no_cr.
Qed.

Lemma spliced_valid (data block : str) :
  valid_text data -> valid_text block -> valid_text (spliced data block).
Proof.
  intros Hd Hb. unfold spliced. rewrite !valid_text_app.
  auto using valid_text_firstn, valid_text_skipn.
Qed.

(** On a valid document the script returns normally, having written the
    UTF-8 encoding of the splice. *)
Lemma main_splices (w : world) (block data : str) :
  formatted_block w = Some block ->
  document_text w = Some data ->
  valid_document data ->
  readme_writable w = true ->
  exists bs,
    main w = (Return tt, after_write w bs) /\
    Codec.utf_8_encode (spliced data block) = Some bs /\
    Codec.utf_8_decode bs = Some (spliced data block).
Proof.
  intros Hblock Hdata Hv Hw.
  destruct (valid_document_found data Hv) as (_ & _ & Hb & He).
  destruct (document_text_valid w data Hdata) as [Hvd _].
  pose proof (formatted_block_valid w block Hblock) as Hvb.
  destruct (utf_8_roundtrip _ (spliced_valid data block Hvd Hvb))
    as (bs & Henc & Hdec).
  exists bs. split; [|split; assumption].
  rewrite (main_run w block data Hblock Hdata).
  apply Z.eqb_neq in Hb. rewrite Hb.
  unfold end_marker_position in He. apply Z.eqb_neq in He. rewrite He.
  rewrite data_update_spliced by exact Hv.
  unfold write_readme. rewrite Hw at 1. cbn [negb].
  rewrite translate_linesep_id, Henc. reflexivity.
Qed.


(** When a marker is missing the script prints and returns. *)
Lemma main_missing_marker (w : world) (block data marker : str) :
  formatted_block w = Some block ->
  document_text w = Some data ->
  missing_marker data marker ->
  main w = (Return tt, after_print w (error_not_found marker)).
Proof.
  intros Hblock Hdata Hm. rewrite (main_run w block data Hblock Hdata).
  destruct Hm as [Habs | b Hfb Hno].
  - apply find_minus_one_iff in Habs. rewrite Habs. reflexivity.
  - pose proof Hfb as (Hb0 & Hbo & _).
    pose proof (occurs_at_range _ _ _ Hbo) as [_ Hbr].
    pose proof (len_nonneg help_begin_text) as HlB.
    rewrite (find_first_occurrence data help_begin_text 0 b ltac:(lia) Hfb).
    destruct (b =? -1) eqn:E1; [lia|].
    destruct (Z.eq_dec (Py.find data help_end_text b) (-1)) as [E | NE].
    + rewrite E. reflexivity.
    + exfalso.
      destruct (find_found data help_end_text b _ ltac:(lia) eq_refl NE)
        as (Hr & Hocc & _).
      exact (Hno _ Hr Hocc).
Qed.

(** Without a formatted block the script raises before it opens the
    document. *)
Lemma main_no_block (w : world) :
  formatted_block w = None -> exists e, main w = (Raise e, w).
Proof.
  unfold formatted_block. destruct (help_command w) as [|st out] eqn:Hc.
  - intros _. exists OSError. apply main_launch_fails. exact Hc.
  - destruct (Codec.utf_8_decode out) eqn:D; [discriminate|].
    intros _. exists UnicodeDecodeError.
    eapply main_output_not_utf8; eauto.
Qed.

(** ** What the splice keeps *)

Lemma spliced_prefix_length (data : str) :
  valid_document data ->
  len (firstn (Z.to_nat (splice_point data)) data) = splice_point data.
Proof.
  intros Hv. destruct (splice_positions data Hv) as (Hb & Hsp & Hbe & Hel).
  unfold len in *. rewrite length_firstn. lia.
Qed.

Lemma spliced_prefix (data block : str) :
  valid_document data ->
  firstn (Z.to_nat (splice_point data)) (spliced data block)
  = firstn (Z.to_nat (splice_point data)) data.
Proof.
  intros Hv. pose proof (spliced_prefix_length data Hv) as Hl.
  unfold spliced. rewrite <- Hl at 1. apply firstn_len_app.
Qed.

Lemma spliced_suffix (data block : str) :
  valid_document data ->
  skipn (Z.to_nat (splice_point data + len block)) (spliced data block)
  = skipn (Z.to_nat (end_marker_position data)) data.
Proof.
  intros Hv. pose proof (spliced_prefix_length data Hv) as Hl.
  unfold spliced. rewrite app_assoc.
  replace (splice_point data + len block)
    with (len (firstn (Z.to_nat (splice_point data)) data ++ block))
    by (rewrite len_app; lia).
  apply skipn_len_app.
Qed.

Lemma spliced_length (data block : str) :
  valid_document data ->
  len (spliced data block)
  = splice_point data + len block + (len data - end_marker_position data).
Proof.
  intros Hv. pose proof (spliced_prefix_length data Hv) as Hl.
  destruct (splice_positions data Hv) as (Hb & Hsp & Hbe & Hel).
  unfold spliced. rewrite !len_app, Hl.
  assert (len (skipn (Z.to_nat (end_marker_position data)) data)
          = len data - end_marker_position data) as ->; [|lia].
  unfold len in *. rewrite length_skipn. lia.
Qed.

Lemma spliced_begin_marker (data block : str) :
  valid_document data ->
  occurs_at help_begin_text (spliced data block)
    (Py.find data help_begin_text 0).
Proof.
  intros Hv. destruct (splice_positions data Hv) as (Hb & Hsp & Hbe & Hel).
  destruct (valid_document_found data Hv) as ((_ & Hbo & _) & _).
  unfold spliced. apply occurs_at_app_l.
  apply (occurs_at_app_inv_l _ _ (skipn (Z.to_nat (splice_point data)) data)).
  - rewrite firstn_skipn. exact Hbo.
  - rewrite (spliced_prefix_length data Hv), Hsp.
    change (len help_begin_text) with 18. lia.
Qed.

Lemma spliced_end_marker (data block : str) :
  valid_document data ->
  occurs_at help_end_text (spliced data block)
    (splice_point data + len block).
Proof.
  intros Hv. destruct (splice_positions data Hv) as (Hb & Hsp & Hbe & Hel).
  destruct (valid_document_found data Hv) as (_ & (_ & Heo & _) & _).
  pose proof (spliced_prefix_length data Hv) as Hl.
  unfold spliced. rewrite app_assoc.
  replace (splice_point data + len block)
    with (len (firstn (Z.to_nat (splice_point data)) data ++ block) + 0)
    by (rewrite len_app; lia).
  apply occurs_at_app_r.
  replace 0 with (end_marker_position data - len (firstn (Z.to_nat (end_marker_position data)) data)).
  - apply occurs_at_app_inv_r; [|unfold len; rewrite length_firstn; lia].
    rewrite firstn_skipn. exact Heo.
  - unfold len in *. rewrite length_firstn. lia.
Qed.

Lemma stored_text_after_write (w : world) (bs : bytes) :
  stored_text (after_write w bs) = Codec.utf_8_decode bs.
Proof. reflexivity. Qed.

Lemma occurs_in_error (marker : str) : occurs marker (error_not_found marker).
Proof.
  unfold error_not_found, Py.repr.
  exists (len (py "Error: " ++ py "'")), (py "Error: " ++ py "'"),
    (py "'" ++ py " not found").
  split; [|reflexivity]. rewrite <- !app_assoc. reflexivity.
Qed.

(** The two markers are of the kind [Py.repr] covers, and the messages
    read as Python prints them. *)
Lemma markers_are_plain :
  forallb Py.plain_char help_begin_text = true /\
  forallb Py.plain_char help_end_text = true.
Proof. split; reflexivity. Qed.

Example error_messages :
  error_not_found help_begin_text
  = py "Error: '.. BEGIN HELP TEXT' not found" /\
  error_not_found help_end_text
  = py "Error: '.. END HELP TEXT' not found".
Proof. split; reflexivity. Qed.

(** ** The claims *)

(** A run on a valid document reaches the second [open], which raises on
    a document that may not be written ([main_read_only]).  The
    theorems about the text a run writes therefore carry the premise
    [readme_writable w = true]. *)

(** C1.  If the begin marker is absent from the document text, or no end
    marker stands at or after the position of the begin marker (as when
    the end marker appears only before it), the script prints a
    diagnostic that names the missing marker and returns without
    writing: the document file holds the same bytes after the run as
    before it. *)
Theorem C1_missing_marker_leaves_document (w : world) (data marker : str) :
  document_text w = Some data ->
  missing_marker data marker ->
  readme_rst (snd (main w)) = readme_rst w /\
  occurs marker (error_not_found marker) /\
  forall block,
    formatted_block w = Some block ->
    main w = (Return tt, after_print w (error_not_found marker)).
Proof.
  intros Hdata Hm. split; [|split].
  - destruct (formatted_block w) as [block|] eqn:Hblock.
    + rewrite (main_missing_marker w block data marker Hblock Hdata Hm).
      reflexivity.
    + destruct (main_no_block w Hblock) as [e ->]. reflexivity.
  - apply occurs_in_error.
  - intros block Hblock. eapply main_missing_marker; eauto.
Qed.

Lemma C1_witness :
  readme_rst (snd (main end_before_begin)) = readme_rst end_before_begin /\
  occurs help_end_text (error_not_found help_end_text) /\
  forall block,
    formatted_block end_before_begin = Some block ->
    main end_before_begin
    = (Return tt,
       after_print end_before_begin (error_not_found help_end_text)).
Proof.
  apply (C1_missing_marker_leaves_document end_before_begin
           (py "x\n.. END HELP TEXT\n.. BEGIN HELP TEXT\ny\n")
           help_end_text).
  - vm_compute. reflexivity.
  - apply (end_missing _ 19).
    + apply find_found; [vm_compute; intuition discriminate
                        | vm_compute; reflexivity | discriminate].
    + apply find_not_found; [vm_compute; intuition discriminate
                            | vm_compute; reflexivity].
Defined.

Ltac by_search :=
  apply valid_document_iff; vm_compute; split; discriminate.

(** The claim C2 as the specification states it fails on three counts.
    A document file with CR LF line ends is valid and the run succeeds,
    but the bytes of the file outside the region are not the same
    afterwards: its first line goes from [a CR LF] to [a LF].  In a
    document where text stands behind the begin marker on its line, the
    marker line is not kept: one character behind the marker stays, the
    rest of the line is replaced.  In a document where text stands in
    front of the end marker on its line, that text is replaced and the
    line of the end marker is another one afterwards. *)
Lemma C2_counterexample :
  (fst (main crlf_world) = Return tt /\
   readme_rst crlf_world = Some crlf_document /\
   firstn 3 crlf_document = pyb "a\r\n" /\
   exists after,
     readme_rst (snd (main crlf_world)) = Some after /\
     firstn 3 after = pyb "a\n.") /\
  (fst (main annotated_marker) = Return tt /\
   document_text annotated_marker = Some annotated_marker_text /\
   In (py ".. BEGIN HELP TEXT (generated)\n")
      (Py.splitlines true annotated_marker_text) /\
   exists updated,
     stored_text (snd (main annotated_marker)) = Some updated /\
     ~ In (py ".. BEGIN HELP TEXT (generated)\n")
          (Py.splitlines true updated) /\
     In (py ".. BEGIN HELP TEXT \n") (Py.splitlines true updated)) /\
  (fst (main end_marker_mid_line) = Return tt /\
   document_text end_marker_mid_line = Some end_marker_mid_line_text /\
   In (py "old text .. END HELP TEXT\n")
      (Py.splitlines true end_marker_mid_line_text) /\
   exists updated,
     stored_text (snd (main end_marker_mid_line)) = Some updated /\
     ~ In (py "old text .. END HELP TEXT\n")
          (Py.splitlines true updated) /\
     In (py ".. END HELP TEXT\n") (Py.splitlines true updated)).
Proof.
  split; [|split].
  - split; [vm_compute; reflexivity|]. split; [reflexivity|].
    split; [vm_compute; reflexivity|].
    eexists. split; vm_compute; reflexivity.
  - split; [vm_compute; reflexivity|]. split; [vm_compute; reflexivity|].
    split; [vm_compute; tauto|].
    eexists. split; [vm_compute; reflexivity|]. split.
    + vm_compute. intuition discriminate.
    + vm_compute. tauto.
  - split; [vm_compute; reflexivity|]. split; [vm_compute; reflexivity|].
    split; [vm_compute; tauto|].
    eexists. split; [vm_compute; reflexivity|]. split.
    + vm_compute. intuition discriminate.
    + vm_compute. tauto.
Qed.

(** The bytes of a file that decodes to the document text itself, next
    to the bytes of the splice. *)
Lemma spliced_bytes (bs out : bytes) (data block : str) :
  Codec.utf_8_decode bs = Some data ->
  Codec.utf_8_encode (spliced data block) = Some out ->
  exists p m s,
    Codec.utf_8_encode (firstn (Z.to_nat (splice_point data)) data) = Some p /\
    Codec.utf_8_encode block = Some m /\
    Codec.utf_8_encode (skipn (Z.to_nat (end_marker_position data)) data)
    = Some s /\
    out = p ++ m ++ s /\
    (exists x, bs = p ++ x) /\
    (exists y, bs = y ++ s).
Proof.
  intros Hdec He. apply utf_8_decode_encode in Hdec.
  unfold spliced in He. rewrite !utf_8_encode_app in He.
  destruct (Codec.utf_8_encode
              (firstn (Z.to_nat (splice_point data)) data))
    as [p|] eqn:Ep; [|discriminate].
  destruct (Codec.utf_8_encode block) as [m|] eqn:Em; [|discriminate].
  destruct (Codec.utf_8_encode
              (skipn (Z.to_nat (end_marker_position data)) data))
    as [s|] eqn:Es; [|discriminate].
  injection He as <-. exists p, m, s. repeat split.
  - pose proof Hdec as Hd1.
    rewrite <- (firstn_skipn (Z.to_nat (splice_point data)) data) in Hd1.
    rewrite utf_8_encode_app, Ep in Hd1.
    destruct (Codec.utf_8_encode (skipn (Z.to_nat (splice_point data)) data))
      as [x|]; [|discriminate].
    injection Hd1 as <-. exists x. reflexivity.
  - pose proof Hdec as Hd2.
    rewrite <- (firstn_skipn (Z.to_nat (end_marker_position data)) data)
      in Hd2.
    rewrite utf_8_encode_app, Es in Hd2.
    destruct (Codec.utf_8_encode
                (firstn (Z.to_nat (end_marker_position data)) data))
      as [y|]; [|discriminate].
    injection Hd2 as <-. exists y. reflexivity.
Qed.

(** The last line of a text that ends in a plain word and a newline
    ends in that word and the newline. *)
Lemma splitlines_last_line (m t : str) :
  (forall c, In c m -> Py.islinebreak c = false) ->
  exists ls l0,
    Py.splitlines true (t ++ m ++ [10%N]) = ls ++ [l0 ++ m ++ [10%N]].
Proof.
  intros Hm.
  destruct m as [|d0 m0]; [cbn [app]; apply splitlines_snoc_newline|].
  remember (length t) as n eqn:Hn. revert t Hn.
  induction n as [n IH] using lt_wf_ind. intros t Hn.
  destruct t as [|c t'].
  - destruct (splitlines_prepend (d0 :: m0) [10%N] Hm ltac:(discriminate))
      as (hd & tl & E1 & E2).
    cbn in E1. injection E1 as <- <-.
    exists [], []. exact E2.
  - cbn [app Py.splitlines]. destruct (Py.islinebreak c) eqn:Ec.
    + destruct t' as [|d t'']; cbn [app].
      * assert (Hd : ((c =? 13)%N && (d0 =? 10)%N)%bool = false).
        { pose proof (Hm d0 (or_introl eq_refl)) as Hpl.
          destruct (N.eqb_spec d0 10) as [->|_];
            [discriminate Hpl | apply andb_false_r]. }
        rewrite Hd.
        destruct (IH 0%nat ltac:(subst n; simpl; lia) [] eq_refl)
          as (ls & l0 & E).
        cbn [app] in E |- *. rewrite E.
        exists ([c] :: ls), l0. reflexivity.
      * destruct ((c =? 13)%N && (d =? 10)%N)%bool.
        -- destruct (IH (length t'') ltac:(subst n; simpl; lia) t'' eq_refl)
             as (ls & l0 & E).
           cbn [app] in E |- *. rewrite E.
           exists ([c; d] :: ls), l0. reflexivity.
        -- destruct (IH (length (d :: t'')) ltac:(subst n; simpl; lia)
                       (d :: t'') eq_refl) as (ls & l0 & E).
           cbn [app] in E |- *. rewrite E.
           exists ([c] :: ls), l0. reflexivity.
    + destruct (IH (length t') ltac:(subst n; simpl; lia) t' eq_refl)
        as (ls & l0 & E).
      cbn [app] in E |- *. rewrite E. destruct ls as [|l ls]; cbn [app].
      * exists [], (c :: l0). reflexivity.
      * exists ((c :: l) :: ls), l0. reflexivity.
Qed.

(** The first line of a text that starts with a plain word starts with
    that word. *)
Lemma splitlines_first_line (m post : str) :
  m <> [] ->
  (forall c, In c m -> Py.islinebreak c = false) ->
  exists l tl, Py.splitlines true (m ++ post) = (m ++ l) :: tl.
Proof.
  induction m as [|c m IH]; intros Hne Hm; [congruence|].
  cbn [app Py.splitlines]. rewrite (Hm c (or_introl eq_refl)).
  destruct m as [|d m'].
  - cbn [app]. destruct (Py.splitlines true post) as [|l ls].
    + exists [], []. reflexivity.
    + exists l, ls. reflexivity.
  - destruct (IH ltac:(discriminate)
                 (fun x Hx => Hm x (or_intror Hx))) as (l & tl & E).
    rewrite E. exists l, tl. reflexivity.
Qed.

Lemma markers_have_no_line_break :
  (forall c, In c help_begin_text -> Py.islinebreak c = false) /\
  (forall c, In c help_end_text -> Py.islinebreak c = false).
Proof.
  split; intros c Hc; vm_compute in Hc;
    repeat (destruct Hc as [<- | Hc]; [reflexivity|]); destruct Hc.
Qed.

(** The kept prefix when a newline stands right behind the begin marker. *)
Lemma prefix_ends_marker_line (data : str) :
  valid_document data ->
  occurs_at (help_begin_text ++ py "\n") data
    (Py.find data help_begin_text 0) ->
  exists pre,
    Py.slice_to data (splice_point data)
    = pre ++ help_begin_text ++ [10%N].
Proof.
  intros Hv (pre & post & Hd & Hlen).
  destruct (splice_positions data Hv) as (Hb & Hsp & Hbe & Hel).
  exists pre. rewrite slice_to_firstn by lia.
  assert (Hn : Z.to_nat (splice_point data)
               = length (pre ++ help_begin_text ++ [10%N])).
  { rewrite Hsp, <- Hlen. unfold len. rewrite !length_app.
    change (length help_begin_text) with 18%nat. simpl length. lia. }
  rewrite Hn. rewrite Hd at 1.
  change (help_begin_text ++ py "\n") with (help_begin_text ++ [10%N]).
  replace (pre ++ (help_begin_text ++ [10%N]) ++ post)
    with ((pre ++ help_begin_text ++ [10%N]) ++ post)
    by (rewrite <- !app_assoc; reflexivity).
  rewrite firstn_app, firstn_all, Nat.sub_diag. cbn [firstn].
  apply app_nil_r.
Qed.

(** C2, amended.  For a document that contains the begin marker and, at
    or after it, the end marker, the text written is
    [data[0:splice_point] + block + data[end_marker_position:]], where
    [data] is the text of the file as read (UTF-8, universal newlines)
    and the splice point lies behind the begin marker and one more
    character (the length of a newline); the file holds the UTF-8
    encoding of that text.  So the text up to the splice point and the
    text from the end marker on, the two markers among them, are the same
    before and after.  When the file has no carriage return (its bytes
    decode to [data] itself) the bytes before the splice point and from
    the end marker on are the same on disk.  When a newline stands right
    behind the begin marker, the lines up to and with the line of the
    begin marker are the same lines before and after.  The lines of the
    updated document from the end marker on, the first of which starts
    with the end marker, are the lines of the kept suffix; they are the
    lines of the old document from there on when the end marker started
    a line in it. *)
Theorem C2_splice_formula (w : world) (bs : bytes) (block data : str) :
  readme_rst w = Some bs ->
  formatted_block w = Some block ->
  document_text w = Some data ->
  valid_document data ->
  readme_writable w = true ->
  let sp := splice_point data in
  let e := end_marker_position data in
  let updated := Py.slice_to data sp ++ block ++ Py.slice_from data e in
  fst (main w) = Return tt /\
  stored_text (snd (main w)) = Some updated /\
  (exists out,
     readme_rst (snd (main w)) = Some out /\
     Codec.utf_8_encode updated = Some out) /\
  sp = Py.find data help_begin_text 0 + len help_begin_text + len (py "\n") /\
  Py.slice_to updated sp = Py.slice_to data sp /\
  Py.slice_from updated (sp + len block) = Py.slice_from data e /\
  occurs_at help_begin_text updated (Py.find data help_begin_text 0) /\
  occurs_at help_end_text updated (sp + len block) /\
  (Codec.utf_8_decode bs = Some data ->
   exists p m s,
     Codec.utf_8_encode (Py.slice_to data sp) = Some p /\
     Codec.utf_8_encode block = Some m /\
     Codec.utf_8_encode (Py.slice_from data e) = Some s /\
     readme_rst (snd (main w)) = Some (p ++ m ++ s) /\
     (exists x, bs = p ++ x) /\
     (exists y, bs = y ++ s)) /\
  (occurs_at (help_begin_text ++ py "\n") data
     (Py.find data help_begin_text 0) ->
   exists ls l0,
     Py.splitlines true (Py.slice_to data sp)
     = ls ++ [l0 ++ help_begin_text ++ py "\n"] /\
     Py.splitlines true data
     = (ls ++ [l0 ++ help_begin_text ++ py "\n"])
       ++ Py.splitlines true (Py.slice_from data sp) /\
     Py.splitlines true updated
     = (ls ++ [l0 ++ help_begin_text ++ py "\n"])
       ++ Py.splitlines true (block ++ Py.slice_from data e)) /\
  (exists l tl,
     Py.splitlines true (Py.slice_from data e) = (help_end_text ++ l) :: tl /\
     Py.splitlines true updated
     = Py.splitlines true (Py.slice_to data sp ++ block)
       ++ (help_end_text ++ l) :: tl /\
     ((exists t, Py.slice_to data e = t ++ py "\n") ->
      Py.splitlines true data
      = Py.splitlines true (Py.slice_to data e)
        ++ (help_end_text ++ l) :: tl)).
Proof.
  intros Hr Hblock Hdata Hv Hw sp e updated.
  destruct (splice_positions data Hv) as (Hb & Hsp & Hbe & Hel).
  fold sp in Hsp. fold e in Hbe, Hel.
  pose proof (len_nonneg block) as Hlb.
  assert (Hup : updated = spliced data block).
  { unfold updated, spliced, sp, e.
    rewrite slice_to_firstn, slice_from_skipn by (fold sp; fold e; lia).
    reflexivity. }
  pose proof (spliced_length data block Hv) as Hlen.
  fold sp in Hlen. fold e in Hlen.
  destruct (main_splices w block data Hblock Hdata Hv Hw)
    as (out & Hm & Henc & Hd).
  assert (Hsplit_sp : data = Py.slice_to data sp ++ Py.slice_from data sp).
  { rewrite slice_to_firstn, slice_from_skipn by lia.
    symmetry. apply firstn_skipn. }
  assert (Hsplit_e : data = Py.slice_to data e ++ Py.slice_from data e).
  { rewrite slice_to_firstn, slice_from_skipn by lia.
    symmetry. apply firstn_skipn. }
  destruct (formatted_block_ends_newline w block Hblock) as [tb Htb].
  destruct markers_have_no_line_break as [HplB HplE].
  rewrite Hm. cbn [fst snd]. rewrite stored_text_after_write.
  split; [reflexivity|]. split; [rewrite Hup; exact Hd|].
  split; [exists out; split; [reflexivity | rewrite Hup; exact Henc]|].
  split; [unfold sp, splice_point; rewrite len_app; lia|].
  split; [rewrite Hup; rewrite !slice_to_firstn by lia;
          apply spliced_prefix; exact Hv|].
  split; [rewrite Hup; rewrite !slice_from_skipn by lia;
          apply spliced_suffix; exact Hv|].
  split; [rewrite Hup; apply spliced_begin_marker; exact Hv|].
  split; [rewrite Hup; apply spliced_end_marker; exact Hv|].
  split; [|split].
  - intros Hraw.
    destruct (spliced_bytes bs out data block Hraw Henc)
      as (p & m & s & Hp & Hmm & Hs & Hout & Hpre & Hsuf).
    exists p, m, s. rewrite !slice_to_firstn, !slice_from_skipn by lia.
    cbn [after_write readme_rst]. rewrite Hout. auto 10.
  - intros Hnl.
    destruct (prefix_ends_marker_line data Hv Hnl) as [pre Hpre].
    fold sp in Hpre.
    destruct (splitlines_last_line help_begin_text pre HplB)
      as (ls & l0 & Hls).
    exists ls, l0.
    assert (Hpl : Py.splitlines true (Py.slice_to data sp)
                  = ls ++ [l0 ++ help_begin_text ++ py "\n"]).
    { rewrite Hpre. exact Hls. }
    assert (Hpre' : Py.slice_to data sp
                    = (pre ++ help_begin_text) ++ [10%N]).
    { rewrite Hpre, <- app_assoc. reflexivity. }
    split; [exact Hpl|]. rewrite <- Hpl. split.
    + rewrite Hsplit_sp at 1. rewrite Hpre'. apply splitlines_app_newline.
    + unfold updated. rewrite Hpre'. apply splitlines_app_newline.
  - destruct (valid_document_found data Hv) as (_ & (_ & Heo & _) & _ & _).
    fold e in Heo. destruct Heo as (epre & epost & Hed & Helen).
    assert (Hsuf : Py.slice_from data e = help_end_text ++ epost).
    { rewrite slice_from_skipn by lia. rewrite Hed at 1.
      replace (Z.to_nat e) with (length epre) by (unfold len in Helen; lia).
      rewrite skipn_app, skipn_all, Nat.sub_diag. reflexivity. }
    destruct (splitlines_first_line help_end_text epost
                ltac:(discriminate) HplE) as (l & tl & Hl).
    exists l, tl. rewrite Hsuf, Hl. split; [reflexivity|]. split.
    + rewrite <- Hl, <- Hsuf. unfold updated.
      replace (Py.slice_to data sp ++ block ++ Py.slice_from data e)
        with (((Py.slice_to data sp ++ tb) ++ [10%N])
              ++ Py.slice_from data e)
        by (rewrite Htb, <- !app_assoc; reflexivity).
      replace (Py.slice_to data sp ++ block)
        with ((Py.slice_to data sp ++ tb) ++ [10%N])
        by (rewrite Htb, <- !app_assoc; reflexivity).
      apply splitlines_app_newline.
    + intros [t Ht]. rewrite <- Hl, <- Hsuf.
      rewrite Hsplit_e at 1. rewrite Ht. apply splitlines_app_newline.
Qed.

Lemma C2_witness :
  let sp := splice_point scenario_text in
  let e := end_marker_position scenario_text in
  let updated :=
    Py.slice_to scenario_text sp ++ scenario_block
    ++ Py.slice_from scenario_text e in
  fst (main scenario) = Return tt /\
  stored_text (snd (main scenario)) = Some updated /\
  (exists p m s,
     readme_rst (snd (main scenario)) = Some (p ++ m ++ s) /\
     (exists x, scenario_document = p ++ x) /\
     (exists y, scenario_document = y ++ s)) /\
  (exists ls l0,
     Py.splitlines true scenario_text
     = (ls ++ [l0 ++ help_begin_text ++ py "\n"])
       ++ Py.splitlines true (Py.slice_from scenario_text sp) /\
     Py.splitlines true updated
     = (ls ++ [l0 ++ help_begin_text ++ py "\n"])
       ++ Py.splitlines true
            (scenario_block ++ Py.slice_from scenario_text e)) /\
  (exists l tl,
     Py.splitlines true updated
     = Py.splitlines true (Py.slice_to scenario_text sp ++ scenario_block)
       ++ (help_end_text ++ l) :: tl /\
     Py.splitlines true scenario_text
     = Py.splitlines true (Py.slice_to scenario_text e)
       ++ (help_end_text ++ l) :: tl).
Proof.
  assert (Hblock : formatted_block scenario = Some scenario_block)
    by (vm_compute; reflexivity).
  assert (Hdata : document_text scenario = Some scenario_text)
    by (vm_compute; reflexivity).
  assert (Hv : valid_document scenario_text) by by_search.
  assert (Hraw : Codec.utf_8_decode scenario_document = Some scenario_text)
    by (vm_compute; reflexivity).
  assert (Hnl : occurs_at (help_begin_text ++ py "\n") scenario_text
                  (Py.find scenario_text help_begin_text 0)).
  { apply occurs_at_iff. vm_compute.
    split; [split; discriminate | reflexivity]. }
  assert (Hel : exists t,
             Py.slice_to scenario_text (end_marker_position scenario_text)
             = t ++ py "\n").
  { exists (removelast
              (Py.slice_to scenario_text (end_marker_position scenario_text))).
    vm_compute. reflexivity. }
  destruct (C2_splice_formula scenario scenario_document scenario_block
              scenario_text eq_refl Hblock Hdata Hv eq_refl)
    as (H1 & H2 & _ & _ & _ & _ & _ & _ & Hbytes & Hlines & Hend).
  intros sp e updated.
  split; [exact H1|]. split; [exact H2|].
  split; [|split].
  - destruct (Hbytes Hraw) as (p & m & s & _ & _ & _ & Hout & Hx & Hy).
    exists p, m, s. auto.
  - destruct (Hlines Hnl) as (ls & l0 & _ & Ha & Hb).
    exists ls, l0. auto.
  - destruct Hend as (l & tl & _ & Ha & Hb).
    exists l, tl. split; [exact Ha | exact (Hb Hel)].
Defined.

(** C3.  In the scenario of the specification (the child prints the
    four-line usage text, the document has an intro line, the two marker
    lines around [OLD], and a rest line) the script returns normally and
    the document becomes: the intro line, the begin marker line, a blank
    line, the unindented label line, a blank line, the help text indented
    by three spaces with its blank line left empty, a blank line, the end
    marker line and the rest line; the label is the fixed string of the
    script. *)
Theorem C3_concrete_scenario :
  main scenario
  = (Return tt, after_write scenario (map byte_of_N scenario_updated)) /\
  stored_text (snd (main scenario)) = Some scenario_updated /\
  Py.splitlines false scenario_updated
  = [ py "intro";
      py ".. BEGIN HELP TEXT";
      py "";
      label_line;
      py "";
      py "   usage: tool [-h]";
      py "";
      py "   options:";
      py "     -h, --help  show help";
      py "";
      py ".. END HELP TEXT";
      py "rest" ].
Proof. vm_compute. repeat split. Qed.

(** C10.  The splice point is the index of the begin marker plus the
    length of the marker plus one, whatever follows the marker: the one
    character behind the begin marker is kept, newline or not, and the
    block comes right behind it. *)
Theorem C10_one_character_kept (w : world) (block data : str) :
  formatted_block w = Some block ->
  document_text w = Some data ->
  valid_document data ->
  readme_writable w = true ->
  let b := Py.find data help_begin_text 0 in
  splice_point data = b + len help_begin_text + 1 /\
  exists c rest,
    Py.slice_from data b = help_begin_text ++ c :: rest /\
    Py.slice_to data (splice_point data)
    = Py.slice_to data b ++ help_begin_text ++ [c] /\
    stored_text (snd (main w))
    = Some (Py.slice_to data b ++ help_begin_text ++ [c]
            ++ block
            ++ Py.slice_from data (end_marker_position data)).
Proof.
  intros Hblock Hdata Hv Hw b.
  destruct (splice_positions data Hv) as (Hb & Hsp & Hbe & Hel).
  destruct (valid_document_found data Hv) as ((_ & Hbo & _) & _).
  fold b in Hb, Hsp, Hbe, Hbo.
  change (len help_begin_text) with 18.
  split; [lia|].
  destruct Hbo as (pre & post & Hd & Hpre).
  assert (Hlen : len data = b + 18 + len post).
  { rewrite Hd, !len_app, Hpre. change (len help_begin_text) with 18. lia. }
  destruct post as [|c rest]; [change (len []) with 0 in Hlen; lia|].
  exists c, rest.
  assert (Hto : Py.slice_to data b = pre).
  { rewrite slice_to_firstn by lia. rewrite Hd, <- Hpre.
    apply firstn_len_app. }
  assert (Hfrom : Py.slice_from data b = help_begin_text ++ c :: rest).
  { rewrite slice_from_skipn by lia. rewrite Hd, <- Hpre.
    apply skipn_len_app. }
  assert (Hsplice : Py.slice_to data (splice_point data)
                    = pre ++ help_begin_text ++ [c]).
  { rewrite slice_to_firstn by lia. rewrite Hsp.
    replace (b + 19) with (len (pre ++ help_begin_text ++ [c]))
      by (rewrite !len_app, Hpre; reflexivity).
    rewrite Hd.
    replace (pre ++ help_begin_text ++ c :: rest)
      with ((pre ++ help_begin_text ++ [c]) ++ rest)
      by (rewrite <- !app_assoc; reflexivity).
    apply firstn_len_app. }
  rewrite Hto. repeat split; [exact Hfrom | exact Hsplice |].
  destruct (main_splices w block data Hblock Hdata Hv Hw) as (bs & Hm & _ & Hdec).
  rewrite Hm. cbn [snd]. rewrite stored_text_after_write, Hdec.
  unfold spliced. rewrite <- slice_to_firstn, <- slice_from_skipn by lia.
  rewrite Hsplice, <- !app_assoc. reflexivity.
Qed.

Lemma C10_witness :
  let b := Py.find no_newline_text help_begin_text 0 in
  splice_point no_newline_text = b + len help_begin_text + 1 /\
  exists c rest,
    Py.slice_from no_newline_text b = help_begin_text ++ c :: rest /\
    Py.slice_to no_newline_text (splice_point no_newline_text)
    = Py.slice_to no_newline_text b ++ help_begin_text ++ [c] /\
    stored_text (snd (main no_newline_after_begin))
    = Some (Py.slice_to no_newline_text b ++ help_begin_text ++ [c]
            ++ scenario_block
            ++ Py.slice_from no_newline_text
                 (end_marker_position no_newline_text)).
Proof.
  apply (C10_one_character_kept no_newline_after_begin scenario_block
           no_newline_text).
  - vm_compute. reflexivity.
  - vm_compute. reflexivity.
  - by_search.
  - reflexivity.
Defined.

(** The character kept in that document is the [X], not a newline. *)
Example no_newline_after_begin_run :
  stored_text (snd (main no_newline_after_begin))
  = Some (py "intro\n.. BEGIN HELP TEXTX" ++ scenario_block
          ++ py ".. END HELP TEXT\nrest\n").
Proof. vm_compute. reflexivity. Qed.

Lemma spliced_slices (data block : str) :
  valid_document data ->
  spliced data block
  = Py.slice_to data (splice_point data)
    ++ block
    ++ Py.slice_from data (end_marker_position data).
Proof.
  intros Hv. destruct (splice_positions data Hv) as (Hb & Hsp & Hbe & Hel).
  rewrite slice_to_firstn, slice_from_skipn by lia. reflexivity.
Qed.

Lemma main_stores_splice (w : world) (block data : str) :
  formatted_block w = Some block ->
  document_text w = Some data ->
  valid_document data ->
  readme_writable w = true ->
  fst (main w) = Return tt /\
  stored_text (snd (main w))
  = Some (Py.slice_to data (splice_point data)
          ++ block
          ++ Py.slice_from data (end_marker_position data)).
Proof.
  intros Hblock Hdata Hv Hw.
  destruct (main_splices w block data Hblock Hdata Hv Hw) as (bs & Hm & _ & Hd).
  rewrite Hm. cbn [fst snd]. rewrite stored_text_after_write, Hd.
  rewrite spliced_slices by exact Hv. split; reflexivity.
Qed.

(** C8.  When the child prints nothing, or whitespace only, the script
    does not fail on a valid document: it writes the document with, in
    between the markers, the label line followed by blank lines only,
    none of them indented. *)
Theorem C8_whitespace_only_output
    (w : world) (status : Z) (out : bytes) (decoded data : str) :
  help_command w = Exits status out ->
  Codec.utf_8_decode out = Some decoded ->
  only_whitespace decoded ->
  document_text w = Some data ->
  valid_document data ->
  readme_writable w = true ->
  let block := py "\nOutput of ``nirw-search --help``::\n\n\n\n" in
  fst (main w) = Return tt /\
  stored_text (snd (main w))
  = Some (Py.slice_to data (splice_point data)
          ++ block
          ++ Py.slice_from data (end_marker_position data)) /\
  Py.splitlines false block = [py ""; label_line; py ""; py ""; py ""].
Proof.
  intros Hcmd Hdec Hws Hdata Hv Hw block.
  assert (Hblock : formatted_block w = Some block).
  { unfold formatted_block. rewrite Hcmd, Hdec. cbn [option_map].
    rewrite format_help_eq, (rstrip_only_whitespace decoded Hws).
    reflexivity. }
  destruct (main_stores_splice w block data Hblock Hdata Hv Hw) as [Hr Hs].
  repeat split; assumption || reflexivity.
Qed.

Lemma C8_witness :
  let block := py "\nOutput of ``nirw-search --help``::\n\n\n\n" in
  fst (main whitespace_output) = Return tt /\
  stored_text (snd (main whitespace_output))
  = Some (Py.slice_to scenario_text (splice_point scenario_text)
          ++ block
          ++ Py.slice_from scenario_text (end_marker_position scenario_text))
  /\ Py.splitlines false block = [py ""; label_line; py ""; py ""; py ""].
Proof.
  apply (C8_whitespace_only_output whitespace_output 0 (pyb " \n\t\n")
           (py " \n\t\n") scenario_text).
  - reflexivity.
  - vm_compute. reflexivity.
  - intros c Hc. vm_compute in Hc.
    repeat (destruct Hc as [<- | Hc]; [reflexivity|]). destruct Hc.
  - vm_compute. reflexivity.
  - by_search.
  - reflexivity.
Defined.

(** The claim C6 as the specification states it fails: the child exits
    with status 1 having printed nothing, and the script returns
    normally, prints nothing and splices the empty help text into the
    document. *)
Lemma C6_counterexample :
  help_command exit_nonzero = Exits 1 [] /\
  fst (main exit_nonzero) = Return tt /\
  printed (snd (main exit_nonzero)) = [] /\
  stored_text (snd (main exit_nonzero))
  = Some (py "intro\n.. BEGIN HELP TEXT\n\nOutput of ``nirw-search --help``::\n\n\n\n.. END HELP TEXT\nrest\n").
Proof. vm_compute. repeat split. Qed.

(** C6, amended.  A child that cannot be started makes the script fail
    with the exception of [subprocess.run], nothing written and nothing
    printed; the exit status of a child that ran is not looked at, and
    the script does with a non-zero status exactly what it does with
    status zero for the same captured output. *)
Theorem C6_launch_failure_raises_status_ignored :
  (forall (doc : option bytes) (rw : bool) (log : list str),
     let w := {| help_command := LaunchFails;
                 readme_rst := doc; readme_writable := rw;
                 printed := log |} in
     main w = (Raise OSError, w)) /\
  (forall (status : Z) (out : bytes) (doc : option bytes) (rw : bool)
          (log : list str),
     let w := {| help_command := Exits status out;
                 readme_rst := doc; readme_writable := rw;
                 printed := log |} in
     let w0 := {| help_command := Exits 0 out;
                  readme_rst := doc; readme_writable := rw;
                  printed := log |} in
     fst (main w) = fst (main w0) /\
     readme_rst (snd (main w)) = readme_rst (snd (main w0)) /\
     printed (snd (main w)) = printed (snd (main w0))).
Proof.
  split.
  - intros doc rw log w. apply main_launch_fails. reflexivity.
  - intros status out doc rw log w w0.
    unfold main, bind, subprocess_run, decode, read_readme, write_readme,
      print, ret, raise.
    subst w w0.
    cbv beta iota zeta delta
      [help_command readme_rst readme_writable printed stdout].
    destruct (Codec.utf_8_decode out) as [decoded|]; [|repeat split].
    destruct doc as [bs|]; [|repeat split].
    destruct (Codec.utf_8_decode bs) as [raw|]; [|repeat split].
    repeat match goal with
      | |- context [if ?c then _ else _] => destruct c
      end; try (repeat split; fail).
    match goal with
    | |- context [Codec.utf_8_encode ?x] => destruct (Codec.utf_8_encode x)
    end; repeat split.
Qed.

(** The claim C5 as the specification states it fails: built as worded
    (the label line and a blank line in front of the indented text), the
    block starts with the label, while the block of the script starts
    with a newline; so the document written is not the one the wording
    gives. *)
Lemma C5_counterexample :
  exists spec_block,
    FormattedBlock_spec scenario_stdout = Some spec_block /\
    formatted_block scenario <> Some spec_block /\
    stored_text (snd (main scenario))
    <> Some (Py.slice_to scenario_text (splice_point scenario_text)
             ++ spec_block
             ++ Py.slice_from scenario_text
                  (end_marker_position scenario_text)).
Proof.
  eexists. split; [vm_compute; reflexivity|].
  split; vm_compute; discriminate.
Qed.

(** C5, amended.  The block is built from the captured bytes by decoding
    them as UTF-8, stripping trailing whitespace, appending two newline
    characters, indenting by three spaces, and putting in front a newline
    character, the fixed label line and a blank line; that block is what
    the script splices into a valid document. *)
Theorem C5_block_construction (w : world) (status : Z) (out : bytes) :
  help_command w = Exits status out ->
  formatted_block w = FormattedBlock_with_leading_newline out /\
  forall block data,
    FormattedBlock_with_leading_newline out = Some block ->
    document_text w = Some data ->
    valid_document data ->
    readme_writable w = true ->
    stored_text (snd (main w))
    = Some (Py.slice_to data (splice_point data)
            ++ block
            ++ Py.slice_from data (end_marker_position data)).
Proof.
  intros Hcmd.
  assert (Heq : formatted_block w = FormattedBlock_with_leading_newline out).
  { unfold formatted_block, FormattedBlock_with_leading_newline.
    rewrite Hcmd. destruct (Codec.utf_8_decode out); reflexivity. }
  split; [exact Heq|].
  intros block data Hblock Hdata Hv Hw. rewrite <- Heq in Hblock.
  apply (main_stores_splice w block data Hblock Hdata Hv Hw).
Qed.

Lemma C5_witness :
  formatted_block scenario
  = FormattedBlock_with_leading_newline scenario_stdout /\
  forall block data,
    FormattedBlock_with_leading_newline scenario_stdout = Some block ->
    document_text scenario = Some data ->
    valid_document data ->
    readme_writable scenario = true ->
    stored_text (snd (main scenario))
    = Some (Py.slice_to data (splice_point data)
            ++ block
            ++ Py.slice_from data (end_marker_position data)).
Proof.
  apply (C5_block_construction scenario 0 scenario_stdout). reflexivity.
Defined.

(** ** Lines of the help text in the document *)

Lemma appears_indented_occurs (line doc : str) :
  appears_indented line doc -> occurs (py "   " ++ line) doc.
Proof.
  intros (pre & post & -> & _). exists (len pre), pre, post.
  split; [|reflexivity]. rewrite <- !app_assoc. reflexivity.
Qed.

Lemma at_line_start_app (a b : str) :
  b <> [] -> at_line_start b -> at_line_start (a ++ b).
Proof.
  intros Hb [E | (p & c & -> & Hc)]; [congruence|].
  right. exists (a ++ p), c. rewrite app_assoc. auto.
Qed.

(** The text made of terminated lines, prefixed or not, ends at a line
    boundary. *)
Lemma concat_lines_at_line_start (f : str -> str) (ls : list str) :
  (forall l, exists p, f l = p ++ l) ->
  Forall (fun l => l <> [] /\ at_line_start l) ls ->
  at_line_start (concat (map f ls)).
Proof.
  intros Hf HF. destruct ls as [|l0 ls0] using rev_ind; [left; reflexivity|].
  clear IHls0. apply Forall_app in HF as [_ HF].
  inversion HF as [|? ? [Hne Hls] _]; subst.
  rewrite map_app, concat_app. cbn [map concat]. rewrite app_nil_r.
  destruct (Hf l0) as [p ->].
  apply at_line_start_app; [|apply at_line_start_app; assumption].
  destruct l0; [congruence|]. destruct p; discriminate.
Qed.

Lemma indent_line_prefixed (prefix l : str) :
  exists p,
    (if Py.indent_predicate l then prefix ++ l else l) = p ++ l.
Proof.
  destruct (Py.indent_predicate l); [exists prefix | exists []]; reflexivity.
Qed.

(** Where each line of the text passed to [textwrap.indent] ends up. *)
Lemma indent_line_placement (text prefix pre post line : str) :
  at_line_start pre ->
  at_line_start text ->
  In line (Py.splitlines true text) ->
  exists pre' post',
    pre ++ Py.indent text prefix ++ post
    = pre' ++ (if Py.indent_predicate line then prefix ++ line else line)
      ++ post' /\
    at_line_start pre'.
Proof.
  intros Hpre Htext Hin.
  pose proof (splitlines_terminated text Htext) as HF.
  apply in_split in Hin as (l1 & l2 & Hl). unfold Py.indent, Py.join.
  rewrite Hl in *. rewrite map_app, concat_app. cbn [map concat].
  set (f := fun l => if Py.indent_predicate l then prefix ++ l else l).
  exists (pre ++ concat (map f l1)), (concat (map f l2) ++ post).
  split; [rewrite <- !app_assoc; reflexivity|].
  apply Forall_app in HF as [HF1 _].
  destruct l1 as [|l l1'].
  - cbn [map concat]. rewrite app_nil_r. exact Hpre.
  - pose proof (concat_lines_at_line_start f (l :: l1')
                  (indent_line_prefixed prefix) HF1) as Hc.
    apply at_line_start_app; [|exact Hc].
    inversion HF1 as [|? ? [Hne _] _]; subst.
    cbn [map concat]. destruct (indent_line_prefixed prefix l) as [p Hp].
    fold (f l) in Hp. rewrite Hp.
    destruct l; [congruence|]. destruct p; discriminate.
Qed.

(** The claim C4 as the specification states it fails: the help text
    [a], a line holding one space, [b] has the line of one space, and
    that line does not stand in the document behind three more spaces,
    whether a line is taken with its end or without: the document has no
    run of four spaces at all. *)
Lemma C4_counterexample :
  exists updated,
    stored_text (snd (main blank_line_output)) = Some updated /\
    In (py " ") (Py.splitlines false (py "a\n \nb\n")) /\
    In (py " \n") (Py.splitlines true (py "a\n \nb\n")) /\
    ~ appears_indented (py " ") updated /\
    ~ appears_indented (py " \n") updated.
Proof.
  eexists. split; [vm_compute; reflexivity|].
  split; [vm_compute; tauto|]. split; [vm_compute; tauto|].
  split; intros H; apply appears_indented_occurs in H; revert H;
    apply find_minus_one_iff; vm_compute; reflexivity.
Qed.

(** C4, amended.  The lines of the updated document are, in this
    order: the lines of the kept prefix with one newline behind it; the
    label line, not indented; an empty line; the lines of the text handed
    to the indentation (the decoded output, stripped on the right, with
    two newlines appended), each behind exactly three spaces when it has
    a character other than whitespace and as it is when it has none (an
    empty line among them); the lines of the kept suffix. *)
Theorem C4_indentation
    (w : world) (status : Z) (out : bytes) (decoded data : str) :
  help_command w = Exits status out ->
  Codec.utf_8_decode out = Some decoded ->
  document_text w = Some data ->
  valid_document data ->
  readme_writable w = true ->
  exists updated,
    stored_text (snd (main w)) = Some updated /\
    Py.splitlines true updated
    = Py.splitlines true (Py.slice_to data (splice_point data) ++ py "\n")
      ++ [label_line ++ py "\n"; py "\n"]
      ++ map (indent_line (py "   "))
           (Py.splitlines true (Py.rstrip decoded ++ py "\n\n"))
      ++ Py.splitlines true (Py.slice_from data (end_marker_position data))
    /\
    (forall line,
       ~ only_whitespace line ->
       indent_line (py "   ") line = py "   " ++ line) /\
    (forall line,
       only_whitespace line -> indent_line (py "   ") line = line) /\
    hd_error label_line = Some 79%N.
Proof.
  intros Hcmd Hdec Hdata Hv Hw.
  assert (Hblock : formatted_block w = Some (format_help decoded)).
  { unfold formatted_block. rewrite Hcmd, Hdec. reflexivity. }
  destruct (main_stores_splice w _ data Hblock Hdata Hv Hw) as [_ Hs].
  eexists. split; [exact Hs|].
  set (P := Py.slice_to data (splice_point data)).
  set (S := Py.slice_from data (end_marker_position data)).
  set (text := Py.rstrip decoded ++ py "\n\n").
  split; [|split; [|split; [|reflexivity]]].
  - rewrite format_help_eq. fold text.
    destruct (indent_snoc_newline (Py.rstrip decoded ++ [10%N]) (py "   "))
      as [t Ht].
    assert (Hind : Py.indent text (py "   ") = t ++ [10%N]).
    { rewrite <- Ht. unfold text. rewrite <- app_assoc. reflexivity. }
    assert (Hplain : forall c, In c (py "   ") -> Py.islinebreak c = false).
    { intros c Hc. vm_compute in Hc.
      repeat (destruct Hc as [<- | Hc]; [reflexivity|]). destruct Hc. }
    replace (P ++ (py "\nOutput of ``nirw-search --help``::\n\n"
                   ++ Py.indent text (py "   ")) ++ S)
      with ((P ++ [10%N])
            ++ ((label_line ++ [10%N])
                ++ (([] ++ [10%N]) ++ ((t ++ [10%N]) ++ S)))).
    + assert (Hlines : Py.splitlines true (Py.indent text (py "   "))
                       = map (indent_line (py "   "))
                           (Py.splitlines true text)).
      { unfold Py.indent, Py.join.
        apply (indent_splitlines_aux (py "   ") Hplain text). }
      rewrite Hind in Hlines.
      rewrite !splitlines_app_newline.
      apply f_equal2; [reflexivity|].
      apply (f_equal2 (@app str) (y1 := [label_line ++ py "\n"]));
        [vm_compute; reflexivity|].
      apply (f_equal2 (@app str) (y1 := [py "\n"]));
        [vm_compute; reflexivity|].
      apply f_equal2; [exact Hlines | reflexivity].
    + rewrite Hind. rewrite <- !app_assoc. reflexivity.
  - intros line Hl. unfold indent_line.
    apply indent_predicate_true_iff in Hl. rewrite Hl. reflexivity.
  - intros line Hl. unfold indent_line.
    apply indent_predicate_false_iff in Hl. rewrite Hl. reflexivity.
Qed.

Lemma C4_witness :
  exists updated,
    stored_text (snd (main scenario)) = Some updated /\
    Py.splitlines true updated
    = Py.splitlines true
        (Py.slice_to scenario_text (splice_point scenario_text) ++ py "\n")
      ++ [label_line ++ py "\n"; py "\n"]
      ++ map (indent_line (py "   "))
           (Py.splitlines true (Py.rstrip scenario_decoded ++ py "\n\n"))
      ++ Py.splitlines true
           (Py.slice_from scenario_text (end_marker_position scenario_text))
    /\
    (forall line,
       ~ only_whitespace line ->
       indent_line (py "   ") line = py "   " ++ line) /\
    (forall line,
       only_whitespace line -> indent_line (py "   ") line = line) /\
    hd_error label_line = Some 79%N.
Proof.
  apply (C4_indentation scenario 0 scenario_stdout scenario_decoded
           scenario_text).
  - reflexivity.
  - vm_compute. reflexivity.
  - vm_compute. reflexivity.
  - by_search.
  - reflexivity.
Defined.

(** ** Marker occurrences behind the end marker *)

Lemma occurs_at_kept_suffix (sub data block : str) (j : Z) :
  valid_document data ->
  occurs_at sub data j ->
  end_marker_position data <= j ->
  occurs_at sub (spliced data block)
    (j - end_marker_position data + splice_point data + len block).
Proof.
  intros Hv Hocc Hj.
  destruct (splice_positions data Hv) as (Hb & Hsp & Hbe & Hel).
  pose proof (spliced_prefix_length data Hv) as Hl.
  set (e := end_marker_position data) in *.
  assert (Hs : occurs_at sub (skipn (Z.to_nat e) data) (j - e)).
  { replace e with (len (firstn (Z.to_nat e) data)) at 2
      by (unfold len in *; rewrite length_firstn; lia).
    apply occurs_at_app_inv_r.
    - rewrite firstn_skipn. exact Hocc.
    - unfold len in *. rewrite length_firstn. lia. }
  unfold spliced. fold e. rewrite app_assoc.
  replace (j - e + splice_point data + len block)
    with (len (firstn (Z.to_nat (splice_point data)) data ++ block) + (j - e))
    by (rewrite len_app; lia).
  apply occurs_at_app_r. exact Hs.
Qed.

(** The claim C9 as stated fails: the begin marker stands at 0 and at
    19, the first end marker at or after the first begin marker at 38;
    the second begin marker is not in the kept suffix, and the document
    written has the begin marker at index 0 only. *)
Lemma C9_counterexample :
  occurs_at help_begin_text repeated_markers_text 19 /\
  Py.find repeated_markers_text help_begin_text 0 = 0 /\
  end_marker_position repeated_markers_text = 38 /\
  exists updated,
    stored_text (snd (main repeated_markers)) = Some updated /\
    forall j, occurs_at help_begin_text updated j -> j = 0.
Proof.
  split; [|split; [|split]].
  - apply occurs_at_iff. vm_compute. intuition discriminate.
  - vm_compute. reflexivity.
  - vm_compute. reflexivity.
  - eexists. split; [vm_compute; reflexivity|].
    intros j Hj. pose proof (occurs_at_range _ _ _ Hj) as [Hj0 _].
    destruct (Z.eq_dec j 0) as [|Hne]; [assumption|]. exfalso.
    revert Hj. apply (find_not_found _ help_begin_text 1);
      [vm_compute; intuition discriminate | vm_compute; reflexivity | lia].
Qed.

(** C9, amended.  Uniqueness of the markers is not enforced: whatever
    the number of occurrences, the script does not abort on a document
    with a begin marker and an end marker at or after it; it splices at
    the first occurrence of the begin marker and the first occurrence of
    the end marker at or after it, and every occurrence of a marker that
    starts at or after that end marker, every later end marker among
    them, is kept as it is in the suffix. *)
Theorem C9_first_occurrences_used (w : world) (block data : str) :
  formatted_block w = Some block ->
  document_text w = Some data ->
  valid_document data ->
  readme_writable w = true ->
  let b := Py.find data help_begin_text 0 in
  let e := end_marker_position data in
  let updated :=
    Py.slice_to data (splice_point data) ++ block ++ Py.slice_from data e in
  first_occurrence_from help_begin_text data 0 b /\
  first_occurrence_from help_end_text data b e /\
  fst (main w) = Return tt /\
  stored_text (snd (main w)) = Some updated /\
  (forall marker j,
     occurs_at marker data j -> e <= j ->
     occurs_at marker updated (j - e + splice_point data + len block)) /\
  (forall j, occurs_at help_end_text data j -> b <= j -> e <= j).
Proof.
  intros Hblock Hdata Hv Hw b e updated.
  destruct (valid_document_found data Hv) as (Hfb & Hfe & _ & _).
  destruct (main_stores_splice w block data Hblock Hdata Hv Hw) as [Hr Hs].
  repeat split; try assumption; try apply Hfb; try apply Hfe.
  - intros marker j Hocc Hj. unfold updated.
    rewrite <- spliced_slices by exact Hv.
    apply occurs_at_kept_suffix; assumption.
  - intros j Hocc Hj. destruct Hfe as (_ & _ & Hno).
    destruct (Z_le_gt_dec e j); [assumption|].
    exfalso. apply (Hno j); [fold b; fold e; lia | exact Hocc].
Qed.

Lemma C9_witness :
  let b := Py.find repeated_markers_text help_begin_text 0 in
  let e := end_marker_position repeated_markers_text in
  let updated :=
    Py.slice_to repeated_markers_text (splice_point repeated_markers_text)
    ++ scenario_block ++ Py.slice_from repeated_markers_text e in
  first_occurrence_from help_begin_text repeated_markers_text 0 b /\
  first_occurrence_from help_end_text repeated_markers_text b e /\
  fst (main repeated_markers) = Return tt /\
  stored_text (snd (main repeated_markers)) = Some updated /\
  (forall marker j,
     occurs_at marker repeated_markers_text j -> e <= j ->
     occurs_at marker updated
       (j - e + splice_point repeated_markers_text + len scenario_block)) /\
  (forall j,
     occurs_at help_end_text repeated_markers_text j -> b <= j -> e <= j).
Proof.
  apply (C9_first_occurrences_used repeated_markers scenario_block
           repeated_markers_text).
  - vm_compute. reflexivity.
  - vm_compute. reflexivity.
  - by_search.
  - reflexivity.
Defined.

(** ** Running the script on its own output *)

Lemma end_marker_has_no_newline : ~ In 10%N help_end_text.
Proof. vm_compute. intuition discriminate. Qed.

Lemma no_cr_app (a b : str) : no_cr (a ++ b) <-> no_cr a /\ no_cr b.
Proof.
  unfold no_cr. rewrite in_app_iff. tauto.
Qed.

Lemma no_cr_firstn (n : nat) (s : str) : no_cr s -> no_cr (firstn n s).
Proof.
  intros H. rewrite <- (firstn_skipn n s) in H. apply no_cr_app in H. tauto.
Qed.

Lemma no_cr_skipn (n : nat) (s : str) : no_cr s -> no_cr (skipn n s).
Proof.
  intros H. rewrite <- (firstn_skipn n s) in H. apply no_cr_app in H. tauto.
Qed.

Section Resplice.

(** A valid document [data], and a text [X] that stands between the kept
    prefix and the kept suffix: it starts and ends with a newline and
    does not show the end marker. *)
Variables data X : str.
Hypothesis Hvalid : valid_document data.
Hypothesis Xfirst : exists t, X = 10%N :: t.
Hypothesis Xlast : exists t, X = t ++ [10%N].
Hypothesis Xclean : ~ occurs help_end_text X.

Let P := firstn (Z.to_nat (splice_point data)) data.
Let S := skipn (Z.to_nat (end_marker_position data)) data.
Let b := Py.find data help_begin_text 0.

Lemma resplice_begin :
  first_occurrence_from help_begin_text (spliced data X) 0 b.
Proof.
  destruct (splice_positions data Hvalid) as (Hb & Hsp & Hbe & Hel).
  destruct (valid_document_found data Hvalid) as ((_ & Hbo & Hbn) & _).
  pose proof (spliced_prefix_length data Hvalid) as Hl.
  split; [exact Hb|]. split; [apply spliced_begin_marker; exact Hvalid|].
  intros j Hj Hocc. apply (Hbn j Hj).
  rewrite <- (firstn_skipn (Z.to_nat (splice_point data)) data).
  apply occurs_at_app_l.
  apply (occurs_at_app_inv_l _ _ _ _ Hocc).
  rewrite Hl, Hsp. change (len help_begin_text) with 18. fold b. lia.
Qed.

Lemma resplice_end :
  first_occurrence_from help_end_text (spliced data X) b
    (splice_point data + len X).
Proof.
  destruct (splice_positions data Hvalid) as (Hb & Hsp & Hbe & Hel).
  pose proof (spliced_prefix_length data Hvalid) as Hl.
  pose proof (len_nonneg X) as HlX.
  fold b in Hb, Hsp, Hbe.
  split; [lia|]. split; [apply spliced_end_marker; exact Hvalid|].
  intros j Hj Hocc.
  pose proof (spliced_begin_marker data X Hvalid) as HB. fold b in HB.
  pose proof (markers_do_not_overlap _ b j HB Hocc ltac:(lia)) as Hov.
  change (len help_begin_text) with 18 in Hov.
  destruct Xfirst as [t1 Ht1]. destruct Xlast as [t2 Ht2].
  destruct (Z.eq_dec j (b + 18)) as [Ej | Nj].
  - (* the marker would have the first newline of [X] as second character *)
    pose proof (occurs_at_nth _ _ _ 1%nat Hocc ltac:(vm_compute; lia)) as Hn.
    unfold spliced in Hn. fold P in Hn, Hl.
    rewrite nth_error_app2 in Hn by (unfold len in *; lia).
    replace (Z.to_nat j + 1 - length P)%nat with 0%nat in Hn
      by (unfold len in *; lia).
    rewrite Ht1 in Hn. discriminate Hn.
  - assert (HjP : len P <= j) by (fold P in Hl; lia).
    unfold spliced in Hocc. fold P S in Hocc.
    pose proof (occurs_at_app_inv_r _ _ _ _ Hocc HjP) as Hocc'.
    fold P in Hl.
    destruct (Z_le_gt_dec (j - len P + len help_end_text) (len X))
      as [Hin | Hout].
    + apply Xclean. exists (j - len P).
      apply (occurs_at_app_inv_l _ _ _ _ Hocc' Hin).
    + (* the marker would reach over the last newline of [X] *)
      change (len help_end_text) with 16 in Hout.
      pose proof (occurs_at_nth _ _ _
                    (Z.to_nat (len X - 1 - (j - len P))) Hocc'
                    ltac:(change (length help_end_text) with 16%nat; lia))
        as Hn.
      rewrite nth_error_app1 in Hn by (unfold len in *; lia).
      replace (Z.to_nat (j - len P) + Z.to_nat (len X - 1 - (j - len P)))%nat
        with (length t2) in Hn.
      * rewrite Ht2 in Hn. rewrite nth_error_app2 in Hn by lia.
        rewrite Nat.sub_diag in Hn. cbn [nth_error] in Hn.
        symmetry in Hn. apply nth_error_In in Hn.
        exact (end_marker_has_no_newline Hn).
      * rewrite Ht2 in *. rewrite len_app in *. unfold len in *.
        cbn [length] in *. unfold str, codepoint in *. lia.
Qed.

(** Splicing a block into that document gives the splice of the block
    into [data]. *)
Lemma resplice (block : str) :
  valid_document (spliced data X) /\
  spliced (spliced data X) block = spliced data block.
Proof.
  destruct (splice_positions data Hvalid) as (Hb & Hsp & Hbe & Hel).
  pose proof (spliced_prefix_length data Hvalid) as Hl.
  pose proof (len_nonneg X) as HlX.
  pose proof resplice_begin as HB. pose proof resplice_end as HE.
  fold b in Hb, Hsp, Hbe.
  assert (Hfb : Py.find (spliced data X) help_begin_text 0 = b)
    by (apply find_first_occurrence; [lia | exact HB]).
  assert (Hfe : end_marker_position (spliced data X)
                = splice_point data + len X).
  { unfold end_marker_position. rewrite Hfb.
    apply find_first_occurrence; [lia | exact HE]. }
  assert (Hsp' : splice_point (spliced data X) = splice_point data).
  { unfold splice_point. rewrite Hfb. reflexivity. }
  split.
  - apply valid_document_iff. rewrite Hfe, Hfb. lia.
  - unfold spliced at 1. rewrite Hfe, Hsp'.
    rewrite spliced_prefix, spliced_suffix by exact Hvalid. reflexivity.
Qed.

End Resplice.

Lemma universal_newlines_spliced (data block : str) :
  valid_document data ->
  no_cr data ->
  (exists t, block = t ++ [10%N]) ->
  Codec.universal_newlines (spliced data block)
  = spliced data (Codec.universal_newlines block).
Proof.
  intros Hv Hcr [t ->]. unfold spliced.
  rewrite universal_newlines_app_no_cr by (apply no_cr_firstn; exact Hcr).
  rewrite universal_newlines_app_lf.
  rewrite (universal_newlines_id (skipn _ data))
    by (apply no_cr_skipn; exact Hcr).
  reflexivity.
Qed.

(** A second run on a document the script wrote for a block without the
    end marker leaves the environment as it is. *)
Lemma second_run_fixed_point (w : world) (block data : str) :
  formatted_block w = Some block ->
  document_text w = Some data ->
  valid_document data ->
  readme_writable w = true ->
  ~ occurs help_end_text block ->
  main (snd (main w)) = (Return tt, snd (main w)).
Proof.
  intros Hblock Hdata Hv Hw Hclean.
  destruct (main_splices w block data Hblock Hdata Hv Hw)
    as (bs & Hm & Henc & Hdec).
  rewrite Hm. cbn [snd].
  destruct (document_text_valid w data Hdata) as [_ Hcr].
  assert (Hblock' : formatted_block (after_write w bs) = Some block)
    by exact Hblock.
  assert (Hlast : exists t, block = t ++ [10%N]).
  { unfold formatted_block in Hblock.
    destruct (help_command w) as [|st out]; [discriminate|].
    destruct (Codec.utf_8_decode out) as [d|]; [|discriminate].
    injection Hblock as <-. apply format_help_ends_newline. }
  assert (Hfirst : exists t, block = 10%N :: t).
  { unfold formatted_block in Hblock.
    destruct (help_command w) as [|st out]; [discriminate|].
    destruct (Codec.utf_8_decode out) as [d|]; [|discriminate].
    injection Hblock as <-. apply format_help_starts_newline. }
  set (X := Codec.universal_newlines block).
  assert (Hdata' : document_text (after_write w bs) = Some (spliced data X)).
  { unfold document_text. cbn [after_write readme_rst]. rewrite Hdec.
    cbn [option_map]. f_equal.
    apply universal_newlines_spliced; assumption. }
  assert (HXfirst : exists t, X = 10%N :: t).
  { destruct Hfirst as [t ->]. eexists. reflexivity. }
  assert (HXlast : exists t, X = t ++ [10%N]).
  { destruct Hlast as [t ->]. apply universal_newlines_snoc_lf. }
  assert (HXclean : ~ occurs help_end_text X).
  { intros H. apply Hclean.
    apply (occurs_universal_newlines help_end_text block
             end_marker_has_no_newline); [discriminate | exact H]. }
  destruct (resplice data X Hv HXfirst HXlast HXclean block) as [Hv' Hre].
  destruct (main_splices (after_write w bs) block (spliced data X)
              Hblock' Hdata' Hv' Hw) as (bs' & Hm' & Henc' & _).
  rewrite Hm'. rewrite Hre, Henc in Henc'. injection Henc' as <-.
  reflexivity.
Qed.

(** *** Where the block can show the end marker *)

Lemma occurs_at_char (sub s : str) (j : Z) (t : nat) :
  occurs_at sub s j -> (t < length sub)%nat ->
  exists x, nth_error sub t = Some x /\
            nth_error s (Z.to_nat j + t) = Some x.
Proof.
  intros Hocc Ht. pose proof (occurs_at_nth sub s j t Hocc Ht) as Hn.
  destruct (nth_error sub t) as [x|] eqn:E.
  - exists x. auto.
  - apply nth_error_None in E. lia.
Qed.

(** An occurrence does not reach into a text none of whose characters
    it has. *)
Lemma occurs_at_app_clean_r (sub a c : str) (j : Z) :
  sub <> [] ->
  (forall x, In x c -> ~ In x sub) ->
  occurs_at sub (a ++ c) j -> occurs_at sub a j.
Proof.
  intros Hne Hc Hocc.
  destruct (Z_le_gt_dec (j + len sub) (len a)) as [Hin | Hout].
  { exact (occurs_at_app_inv_l _ _ _ _ Hocc Hin). }
  exfalso. pose proof (occurs_at_range _ _ _ Hocc) as [Hj0 _].
  assert (Hls : (0 < length sub)%nat)
    by (destruct sub; [congruence | simpl; lia]).
  set (t := (length a - Z.to_nat j)%nat).
  assert (Ht : (t < length sub)%nat) by (unfold len in *; lia).
  destruct (occurs_at_char sub _ j t Hocc Ht) as (x & Hx1 & Hx2).
  rewrite nth_error_app2 in Hx2 by lia.
  apply nth_error_In in Hx1, Hx2. exact (Hc x Hx2 Hx1).
Qed.

(** An occurrence does not start in a text that has nowhere its first
    character. *)
Lemma occurs_at_app_clean_l (sub a c : str) (j : Z) (x0 : codepoint) :
  hd_error sub = Some x0 ->
  ~ In x0 a ->
  occurs_at sub (a ++ c) j -> len a <= j.
Proof.
  intros Hhd Ha Hocc.
  destruct (Z_le_gt_dec (len a) j) as [|Hlt]; [assumption|]. exfalso.
  pose proof (occurs_at_range _ _ _ Hocc) as [Hj0 _].
  destruct sub as [|y sub']; [discriminate|]. injection Hhd as ->.
  destruct (occurs_at_char (x0 :: sub') _ j 0 Hocc ltac:(simpl; lia))
    as (x & Hx1 & Hx2).
  injection Hx1 as <-.
  rewrite nth_error_app1 in Hx2 by (unfold len in *; lia).
  apply nth_error_In in Hx2. exact (Ha Hx2).
Qed.

(** In a text made of lines that end with a line break, a text without
    line break occurs inside one of the lines. *)
Lemma occurs_concat_lines (sub : str) (segs : list str) :
  sub <> [] ->
  (forall x, In x sub -> Py.islinebreak x = false) ->
  Forall (fun l => l <> [] /\ at_line_start l) segs ->
  occurs sub (concat segs) ->
  exists seg, In seg segs /\ occurs sub seg.
Proof.
  intros Hne Hsub HF. induction HF as [|seg rest [Hseg Hls] HF IH].
  - intros (j & Hocc). apply occurs_at_range in Hocc.
    destruct sub; [congruence|]. cbn [concat] in Hocc.
    rewrite len_cons in Hocc. change (len (@nil codepoint)) with 0 in Hocc.
    pose proof (len_nonneg sub). lia.
  - cbn [concat]. intros (j & Hocc).
    destruct (Z_le_gt_dec (len seg) j) as [Hge | Hlt].
    + apply occurs_at_app_inv_r in Hocc; [|exact Hge].
      destruct IH as (s' & Hin & Ho); [eexists; exact Hocc|].
      exists s'. split; [right; exact Hin | exact Ho].
    + exists seg. split; [left; reflexivity|]. exists j.
      destruct (Z_le_gt_dec (j + len sub) (len seg)) as [Hin | Hout].
      { exact (occurs_at_app_inv_l _ _ _ _ Hocc Hin). }
      exfalso. destruct Hls as [E | (p & c & E & Hc)]; [congruence|].
      subst seg. pose proof (occurs_at_range _ _ _ Hocc) as [Hj0 _].
      rewrite len_app in Hlt, Hout. change (len [c]) with 1 in Hlt, Hout.
      set (t := (length p - Z.to_nat j)%nat).
      assert (Ht : (t < length sub)%nat) by (unfold len in *; lia).
      destruct (occurs_at_char sub _ j t Hocc Ht) as (x & Hx1 & Hx2).
      replace (Z.to_nat j + t)%nat with (length p) in Hx2
        by (unfold len in *; lia).
      rewrite <- app_assoc in Hx2. rewrite nth_error_app2 in Hx2 by lia.
      rewrite Nat.sub_diag in Hx2. cbn [app nth_error] in Hx2.
      injection Hx2 as <-. apply nth_error_In in Hx1.
      rewrite (Hsub c Hx1) in Hc. discriminate.
Qed.

Lemma occurs_in_line (sub text line : str) :
  In line (Py.splitlines true text) -> occurs sub line -> occurs sub text.
Proof.
  intros Hin (i & Hocc). apply in_split in Hin as (l1 & l2 & Hl).
  rewrite <- (splitlines_concat text), Hl, concat_app. cbn [concat].
  eexists. apply occurs_at_app_r, occurs_at_app_l. exact Hocc.
Qed.

(** The block shows the end marker only if the output of the child
    does. *)
Lemma format_help_end_marker (decoded : str) :
  occurs help_end_text (format_help decoded) ->
  occurs help_end_text decoded.
Proof.
  rewrite format_help_eq. unfold Py.indent, Py.join.
  set (header := py "\nOutput of ``nirw-search --help``::\n\n").
  set (text := Py.rstrip decoded ++ py "\n\n").
  set (f := fun line =>
              if Py.indent_predicate line then py "   " ++ line else line).
  intros Hocc.
  assert (Htext : at_line_start text).
  { right. exists (Py.rstrip decoded ++ py "\n"), 10%N.
    split; [unfold text; rewrite <- app_assoc; reflexivity | reflexivity]. }
  pose proof (splitlines_terminated text Htext) as HF.
  destruct (occurs_concat_lines help_end_text
              (header :: map f (Py.splitlines true text)))
    as (seg & Hin & Hseg).
  - discriminate.
  - intros x Hx. vm_compute in Hx.
    repeat (destruct Hx as [<- | Hx]; [reflexivity|]). destruct Hx.
  - constructor.
    + split; [discriminate|].
      right. exists (py "\nOutput of ``nirw-search --help``::\n"), 10%N.
      split; reflexivity.
    + apply Forall_forall. intros l' Hl'.
      apply in_map_iff in Hl' as (l & <- & Hl).
      rewrite Forall_forall in HF. destruct (HF l Hl) as [Hne Hls].
      destruct (indent_line_prefixed (py "   ") l) as [p Hp].
      fold (f l) in Hp. rewrite Hp. split.
      * destruct l; [congruence|]. destruct p; discriminate.
      * apply at_line_start_app; assumption.
  - exact Hocc.
  - destruct Hin as [<- | Hin].
    + exfalso. revert Hseg. apply find_minus_one_iff.
      vm_compute. reflexivity.
    + apply in_map_iff in Hin as (l & <- & Hl).
      assert (Hline : occurs help_end_text l).
      { unfold f in Hseg. destruct (Py.indent_predicate l); [|exact Hseg].
        destruct Hseg as (j & Hj).
        pose proof (occurs_at_app_clean_l help_end_text (py "   ") l j 46%N
                      eq_refl ltac:(vm_compute; intuition discriminate) Hj)
          as Hge.
        eexists. exact (occurs_at_app_inv_r _ _ _ _ Hj Hge). }
      pose proof (occurs_in_line help_end_text text l Hl Hline) as (j & Hj).
      apply occurs_at_app_clean_r in Hj.
      * destruct (rstrip_prefix decoded) as (t & Hd & _).
        exists j. rewrite Hd. apply occurs_at_app_l. exact Hj.
      * discriminate.
      * intros x Hx. vm_compute in Hx.
        destruct Hx as [<- | [<- | []]]; apply end_marker_has_no_newline.
Qed.

(** The claim C7 as the specification states it fails: the help text
    shows the end marker; the first run succeeds, and the second run,
    with the same output of the child, finds that end marker first and
    leaves a document that differs from the one after the first run. *)
Lemma C7_counterexample :
  fst (main end_marker_in_help) = Return tt /\
  printed (snd (main end_marker_in_help)) = [] /\
  fst (main (snd (main end_marker_in_help))) = Return tt /\
  stored_text (snd (main end_marker_in_help))
  = Some (py ".. BEGIN HELP TEXT\n\nOutput of ``nirw-search --help``::\n\n   .. END HELP TEXT\n\n.. END HELP TEXT\n") /\
  stored_text (snd (main (snd (main end_marker_in_help))))
  = Some (py ".. BEGIN HELP TEXT\n\nOutput of ``nirw-search --help``::\n\n   .. END HELP TEXT\n\n.. END HELP TEXT\n\n.. END HELP TEXT\n") /\
  readme_rst (snd (main (snd (main end_marker_in_help))))
  <> readme_rst (snd (main end_marker_in_help)).
Proof.
  repeat split; try (vm_compute; reflexivity).
  vm_compute. discriminate.
Qed.

(** C7, amended.  For every document on which the script succeeds, and
    a captured help text that does not show the end marker, a second run
    with the same output of the child leaves the environment as the
    first run left it: the same document, nothing printed. *)
Theorem C7_second_run_changes_nothing
    (w : world) (status : Z) (out : bytes) (decoded data : str) :
  help_command w = Exits status out ->
  Codec.utf_8_decode out = Some decoded ->
  document_text w = Some data ->
  valid_document data ->
  readme_writable w = true ->
  ~ occurs help_end_text decoded ->
  fst (main w) = Return tt /\
  main (snd (main w)) = (Return tt, snd (main w)) /\
  readme_rst (snd (main (snd (main w)))) = readme_rst (snd (main w)).
Proof.
  intros Hcmd Hdec Hdata Hv Hw Hclean.
  assert (Hblock : formatted_block w = Some (format_help decoded)).
  { unfold formatted_block. rewrite Hcmd, Hdec. reflexivity. }
  assert (Hfix : main (snd (main w)) = (Return tt, snd (main w))).
  { apply (second_run_fixed_point w (format_help decoded) data Hblock Hdata Hv
             Hw).
    intros H. apply Hclean, format_help_end_marker, H. }
  split; [|split].
  - apply (main_stores_splice w _ data Hblock Hdata Hv Hw).
  - exact Hfix.
  - rewrite Hfix. reflexivity.
Qed.

Lemma C7_witness :
  fst (main scenario) = Return tt /\
  main (snd (main scenario)) = (Return tt, snd (main scenario)) /\
  readme_rst (snd (main (snd (main scenario))))
  = readme_rst (snd (main scenario)).
Proof.
  apply (C7_second_run_changes_nothing scenario 0 scenario_stdout
           (py "usage: tool [-h]\n\noptions:\n  -h, --help  show help\n")
           scenario_text).
  - reflexivity.
  - vm_compute. reflexivity.
  - vm_compute. reflexivity.
  - by_search.
  - reflexivity.
  - apply find_minus_one_iff. vm_compute. reflexivity.
Defined.

(** ** Line ends of the file *)

(** Reading in text mode turns the CR LF of the file into LF, and the
    text is written with LF: outside the markers the text is the same
    before and after, the bytes of the file are not. *)
Example crlf_document_is_normalised :
  let w := world_of (Exits 0 (pyb "x\n"))
             (pyb "a\r\n.. BEGIN HELP TEXT\r\n.. END HELP TEXT\r\nz\r\n") in
  document_text w
  = Some (py "a\n.. BEGIN HELP TEXT\n.. END HELP TEXT\nz\n") /\
  stored_text (snd (main w))
  = Some (py "a\n.. BEGIN HELP TEXT\n\nOutput of ``nirw-search --help``::\n\n   x\n\n.. END HELP TEXT\nz\n").
Proof. vm_compute. split; reflexivity. Qed.

(** * Further properties of the script *)

(** ** The codec: encoding and decoding are inverse to each other *)

(** X1.  The strict UTF-8 decoder and the encoder are inverse partial
    functions: a text encodes to some bytes exactly when those bytes
    decode to the text. *)
Theorem utf_8_encode_iff_decode (s : str) (bs : bytes) :
  Codec.utf_8_encode s = Some bs <-> Codec.utf_8_decode bs = Some s.
Proof.
  split; [apply utf_8_encode_decode | apply utf_8_decode_encode].
Qed.

(** ** Every run is of one of seven kinds *)





(** ** A successful run is followed by successful runs *)

Lemma spliced_valid_document (data X : str) :
  valid_document data -> valid_document (spliced data X).
Proof.
  intros Hv. destruct (splice_positions data Hv) as (Hb & Hsp & Hbe & Hel).
  pose proof (len_nonneg X) as HlX.
  exists (Py.find data help_begin_text 0), (splice_point data + len X).
  split; [apply spliced_begin_marker; exact Hv|].
  split; [lia | apply spliced_end_marker; exact Hv].
Qed.

(** What the next read finds in a document the script wrote. *)
Lemma document_text_after_run (w : world) (block data : str) :
  formatted_block w = Some block ->
  document_text w = Some data ->
  valid_document data ->
  readme_writable w = true ->
  document_text (snd (main w))
  = Some (spliced data (Codec.universal_newlines block)).
Proof.
  intros Hblock Hdata Hv Hw.
  destruct (main_splices w block data Hblock Hdata Hv Hw) as (bs & Hm & _ & Hdec).
  destruct (document_text_valid w data Hdata) as [_ Hcr].
  rewrite Hm. unfold document_text. cbn [snd after_write readme_rst].
  rewrite Hdec. cbn [option_map]. f_equal.
  apply universal_newlines_spliced; try assumption.
  apply (formatted_block_ends_newline w); exact Hblock.
Qed.

(** X3.  After a run on a valid document, the document the script wrote
    is valid again: the next run, whatever the child prints then as long
    as it is UTF-8, returns normally and prints no diagnostic. *)
Theorem next_run_succeeds
    (w : world) (block data : str) (status' : Z) (out' : bytes)
    (decoded' : str) :
  formatted_block w = Some block ->
  document_text w = Some data ->
  valid_document data ->
  readme_writable w = true ->
  Codec.utf_8_decode out' = Some decoded' ->
  let w1 := {| help_command := Exits status' out';
               readme_rst := readme_rst (snd (main w));
               readme_writable := readme_writable w;
               printed := printed (snd (main w)) |} in
  (exists data1, document_text w1 = Some data1 /\ valid_document data1) /\
  fst (main w1) = Return tt /\
  printed (snd (main w1)) = printed w.
Proof.
  intros Hblock Hdata Hv Hw Hdec' w1.
  pose proof (document_text_after_run w block data Hblock Hdata Hv Hw) as Hd1.
  assert (Hd1' : document_text w1
                 = Some (spliced data (Codec.universal_newlines block)))
    by exact Hd1.
  pose proof (spliced_valid_document data (Codec.universal_newlines block) Hv)
    as Hv1.
  assert (Hblock1 : formatted_block w1 = Some (format_help decoded')).
  { unfold formatted_block, w1. cbn [help_command]. rewrite Hdec'.
    reflexivity. }
  split; [eexists; split; [exact Hd1' | exact Hv1]|].
  destruct (main_splices w1 _ _ Hblock1 Hd1' Hv1 Hw) as (bs1 & Hm1 & _).
  rewrite Hm1. cbn [fst snd after_write printed]. split; [reflexivity|].
  unfold w1. cbn [printed].
  destruct (main_splices w block data Hblock Hdata Hv Hw) as (bs & Hm & _).
  rewrite Hm. reflexivity.
Qed.

Lemma next_run_succeeds_witness :
  let w1 := {| help_command := Exits 0 padded_stdout;
               readme_rst := readme_rst (snd (main scenario));
               readme_writable := readme_writable scenario;
               printed := printed (snd (main scenario)) |} in
  (exists data1, document_text w1 = Some data1 /\ valid_document data1) /\
  fst (main w1) = Return tt /\
  printed (snd (main w1)) = printed scenario.
Proof.
  apply (next_run_succeeds scenario scenario_block scenario_text 0
           padded_stdout
           (py "usage: tool [-h]\n\noptions:\n  -h, --help  show help\n  \n\t\n\n")).
  - vm_compute. reflexivity.
  - vm_compute. reflexivity.
  - by_search.
  - reflexivity.
  - vm_compute. reflexivity.
Defined.

(** X4.  A run on a valid document does not move the begin marker: in
    the document as the next run reads it, the first begin marker, the
    splice point and the text up to the splice point are what they were. *)
Theorem begin_marker_stays (w : world) (block data : str) :
  formatted_block w = Some block ->
  document_text w = Some data ->
  valid_document data ->
  readme_writable w = true ->
  exists data1,
    document_text (snd (main w)) = Some data1 /\
    Py.find data1 help_begin_text 0 = Py.find data help_begin_text 0 /\
    splice_point data1 = splice_point data /\
    Py.slice_to data1 (splice_point data1)
    = Py.slice_to data (splice_point data).
Proof.
  intros Hblock Hdata Hv Hw.
  exists (spliced data (Codec.universal_newlines block)).
  split; [apply document_text_after_run; assumption|].
  set (X := Codec.universal_newlines block).
  destruct (splice_positions data Hv) as (Hb & Hsp & Hbe & Hel).
  assert (Hfb : Py.find (spliced data X) help_begin_text 0
                = Py.find data help_begin_text 0).
  { apply find_first_occurrence; [lia | apply resplice_begin; exact Hv]. }
  assert (Hsp' : splice_point (spliced data X) = splice_point data).
  { unfold splice_point. rewrite Hfb. reflexivity. }
  split; [exact Hfb|]. split; [exact Hsp'|].
  rewrite Hsp'. pose proof (spliced_length data X Hv) as Hlen.
  pose proof (len_nonneg X) as HlX.
  rewrite !slice_to_firstn by lia. apply spliced_prefix. exact Hv.
Qed.

Lemma begin_marker_stays_witness :
  exists data1,
    document_text (snd (main scenario)) = Some data1 /\
    Py.find data1 help_begin_text 0 = Py.find scenario_text help_begin_text 0
    /\ splice_point data1 = splice_point scenario_text /\
    Py.slice_to data1 (splice_point data1)
    = Py.slice_to scenario_text (splice_point scenario_text).
Proof.
  apply (begin_marker_stays scenario scenario_block scenario_text).
  - vm_compute. reflexivity.
  - vm_compute. reflexivity.
  - by_search.
  - reflexivity.
Defined.

(** ** Whitespace behind the help text *)

Lemma rstrip_app_whitespace (d ws : str) :
  only_whitespace ws -> Py.rstrip (d ++ ws) = Py.rstrip d.
Proof.
  intros Hws. induction d as [|c d IH]; cbn [app Py.rstrip].
  - apply rstrip_only_whitespace. exact Hws.
  - rewrite IH. reflexivity.
Qed.

Lemma format_help_app_whitespace (d ws : str) :
  only_whitespace ws -> format_help (d ++ ws) = format_help d.
Proof.
  intros Hws. rewrite !format_help_eq, rstrip_app_whitespace by exact Hws.
  reflexivity.
Qed.

(** X5.  Whitespace behind the output of the child (blank lines, spaces,
    a missing or repeated final newline) does not matter: two outputs
    that differ by trailing whitespace only make the script end the same
    way, with the same document and the same printed lines. *)
Theorem trailing_whitespace_ignored
    (status : Z) (out1 out2 : bytes) (d ws : str)
    (doc : option bytes) (rw : bool) (log : list str) :
  Codec.utf_8_decode out1 = Some d ->
  Codec.utf_8_decode out2 = Some (d ++ ws) ->
  only_whitespace ws ->
  let w1 := {| help_command := Exits status out1;
               readme_rst := doc; readme_writable := rw;
               printed := log |} in
  let w2 := {| help_command := Exits status out2;
               readme_rst := doc; readme_writable := rw;
               printed := log |} in
  fst (main w1) = fst (main w2) /\
  readme_rst (snd (main w1)) = readme_rst (snd (main w2)) /\
  printed (snd (main w1)) = printed (snd (main w2)).
Proof.
  intros H1 H2 Hws w1 w2.
  unfold main, bind, subprocess_run, decode, read_readme, write_readme,
    print, ret, raise.
  subst w1 w2.
  cbv beta iota zeta delta
    [help_command readme_rst readme_writable printed stdout].
  rewrite H1, H2, (format_help_app_whitespace d ws Hws).
  destruct doc as [bs|]; [|repeat split].
  destruct (Codec.utf_8_decode bs) as [raw|]; [|repeat split].
  repeat match goal with
    | |- context [if ?c then _ else _] => destruct c
    end; try (repeat split; fail).
  match goal with
  | |- context [Codec.utf_8_encode ?x] => destruct (Codec.utf_8_encode x)
  end; repeat split.
Qed.

Lemma trailing_whitespace_ignored_witness :
  let w1 := {| help_command := Exits 0 scenario_stdout;
               readme_rst := Some scenario_document;
               readme_writable := true; printed := [] |} in
  let w2 := {| help_command := Exits 0 padded_stdout;
               readme_rst := Some scenario_document;
               readme_writable := true; printed := [] |} in
  fst (main w1) = fst (main w2) /\
  readme_rst (snd (main w1)) = readme_rst (snd (main w2)) /\
  printed (snd (main w1)) = printed (snd (main w2)).
Proof.
  apply (trailing_whitespace_ignored 0 scenario_stdout padded_stdout
           scenario_decoded (py "  \n\t\n\n") (Some scenario_document) true
           []).
  - vm_compute. reflexivity.
  - vm_compute. reflexivity.
  - intros c Hc. vm_compute in Hc.
    repeat (destruct Hc as [<- | Hc]; [reflexivity|]). destruct Hc.
Defined.

(** ** The bytes of the file *)

(** X6.  For a document file without carriage return, the bytes on disk
    outside the replaced region stay: the file after the run is [p],
    the encoded block and [s], where [p], the encoding of the text up to
    the splice point, starts the old file and [s], the encoding of the
    text from the end marker on, ends it. *)
Theorem file_bytes_outside_region_kept
    (w : world) (bs : bytes) (block data : str) :
  readme_rst w = Some bs ->
  Codec.utf_8_decode bs = Some data ->
  no_cr data ->
  formatted_block w = Some block ->
  valid_document data ->
  readme_writable w = true ->
  exists p m s,
    Codec.utf_8_encode (Py.slice_to data (splice_point data)) = Some p /\
    Codec.utf_8_encode block = Some m /\
    Codec.utf_8_encode (Py.slice_from data (end_marker_position data))
    = Some s /\
    readme_rst (snd (main w)) = Some (p ++ m ++ s) /\
    (exists x, bs = p ++ x) /\
    (exists y, bs = y ++ s).
Proof.
  intros Hr Hdec Hcr Hblock Hv Hw.
  assert (Hdata : document_text w = Some data).
  { unfold document_text. rewrite Hr, Hdec. cbn [option_map].
    rewrite universal_newlines_id by exact Hcr. reflexivity. }
  destruct (splice_positions data Hv) as (Hb & Hsp & Hbe & Hel).
  rewrite slice_to_firstn, slice_from_skipn by lia.
  destruct (main_splices w block data Hblock Hdata Hv Hw) as (out & Hm & He & _).
  apply utf_8_decode_encode in Hdec.
  unfold spliced in He. rewrite !utf_8_encode_app in He.
  destruct (Codec.utf_8_encode (firstn _ data)) as [p|] eqn:Ep;
    [|discriminate].
  destruct (Codec.utf_8_encode block) as [m|] eqn:Em; [|discriminate].
  destruct (Codec.utf_8_encode (skipn _ data)) as [s|] eqn:Es;
    [|discriminate].
  injection He as <-.
  exists p, m, s. repeat split.
  - rewrite Hm. reflexivity.
  - pose proof Hdec as Hd1.
    rewrite <- (firstn_skipn (Z.to_nat (splice_point data)) data) in Hd1.
    rewrite utf_8_encode_app, Ep in Hd1.
    destruct (Codec.utf_8_encode (skipn (Z.to_nat (splice_point data)) data))
      as [x|]; [|discriminate].
    injection Hd1 as <-. exists x. reflexivity.
  - pose proof Hdec as Hd2.
    rewrite <- (firstn_skipn (Z.to_nat (end_marker_position data)) data)
      in Hd2.
    rewrite utf_8_encode_app, Es in Hd2.
    destruct (Codec.utf_8_encode
                (firstn (Z.to_nat (end_marker_position data)) data))
      as [y|]; [|discriminate].
    injection Hd2 as <-. exists y. reflexivity.
Qed.

Lemma file_bytes_outside_region_kept_witness :
  exists p m s,
    Codec.utf_8_encode (Py.slice_to scenario_text (splice_point scenario_text))
    = Some p /\
    Codec.utf_8_encode scenario_block = Some m /\
    Codec.utf_8_encode
      (Py.slice_from scenario_text (end_marker_position scenario_text))
    = Some s /\
    readme_rst (snd (main scenario)) = Some (p ++ m ++ s) /\
    (exists x, scenario_document = p ++ x) /\
    (exists y, scenario_document = y ++ s).
Proof.
  apply (file_bytes_outside_region_kept scenario scenario_document
           scenario_block scenario_text).
  - reflexivity.
  - vm_compute. reflexivity.
  - vm_compute. intuition discriminate.
  - vm_compute. reflexivity.
  - by_search.
  - reflexivity.
Defined.

(** ** The replaced region *)

(** X7.  When the end marker does not stand right behind the begin
    marker, the document is the kept prefix, an old region and the kept
    suffix, and the run replaces the old region by the block: nothing of
    the old region is left and nothing else changes. *)
Theorem splice_replaces_region (w : world) (block data : str) :
  formatted_block w = Some block ->
  document_text w = Some data ->
  valid_document data ->
  readme_writable w = true ->
  splice_point data <= end_marker_position data ->
  exists prefix old suffix,
    data = prefix ++ old ++ suffix /\
    len prefix = splice_point data /\
    len old = end_marker_position data - splice_point data /\
    Py.startswith suffix help_end_text = true /\
    stored_text (snd (main w)) = Some (prefix ++ block ++ suffix).
Proof.
  intros Hblock Hdata Hv Hw Hle.
  destruct (splice_positions data Hv) as (Hb & Hsp & Hbe & Hel).
  destruct (valid_document_found data Hv) as (_ & (_ & Heo & _) & _).
  destruct (main_splices w block data Hblock Hdata Hv Hw) as (bs & Hm & _ & Hd).
  set (sp := Z.to_nat (splice_point data)) in *.
  set (e := Z.to_nat (end_marker_position data)) in *.
  exists (firstn sp data), (firstn (e - sp) (skipn sp data)), (skipn e data).
  repeat split.
  - rewrite <- (firstn_skipn sp data) at 1. f_equal.
    rewrite <- (firstn_skipn (e - sp) (skipn sp data)) at 1. f_equal.
    rewrite skipn_skipn. f_equal. lia.
  - apply spliced_prefix_length. exact Hv.
  - unfold len in *. rewrite length_firstn, length_skipn. lia.
  - apply occurs_at_iff in Heo as [_ Heo]. exact Heo.
  - rewrite Hm. cbn [snd]. rewrite stored_text_after_write. exact Hd.
Qed.

Lemma splice_replaces_region_witness :
  exists prefix old suffix,
    scenario_text = prefix ++ old ++ suffix /\
    len prefix = splice_point scenario_text /\
    len old = end_marker_position scenario_text - splice_point scenario_text /\
    Py.startswith suffix help_end_text = true /\
    stored_text (snd (main scenario))
    = Some (prefix ++ scenario_block ++ suffix).
Proof.
  apply (splice_replaces_region scenario scenario_block scenario_text).
  - vm_compute. reflexivity.
  - vm_compute. reflexivity.
  - by_search.
  - reflexivity.
  - vm_compute. discriminate.
Defined.

(** X8.  When the end marker stands right behind the begin marker, the
    one character the script keeps behind the begin marker is the first
    character of the end marker: the run removes nothing, and the
    document gets that full stop and the block in front of the end
    marker. *)
Theorem adjacent_markers_insert (w : world) (block data : str) :
  formatted_block w = Some block ->
  document_text w = Some data ->
  valid_document data ->
  readme_writable w = true ->
  end_marker_position data < splice_point data ->
  end_marker_position data
  = Py.find data help_begin_text 0 + len help_begin_text /\
  stored_text (snd (main w))
  = Some (Py.slice_to data (end_marker_position data)
          ++ py "." ++ block
          ++ Py.slice_from data (end_marker_position data)).
Proof.
  intros Hblock Hdata Hv Hw Hlt.
  destruct (splice_positions data Hv) as (Hb & Hsp & Hbe & Hel).
  destruct (valid_document_found data Hv) as (_ & (_ & Heo & _) & _).
  change (len help_begin_text) with 18.
  assert (He : end_marker_position data = Py.find data help_begin_text 0 + 18)
    by lia.
  split; [exact He|].
  destruct (main_stores_splice w block data Hblock Hdata Hv Hw) as [_ Hs].
  rewrite Hs. f_equal.
  destruct Heo as (pre & post & Hd & Hpre).
  assert (H1 : Py.slice_to data (end_marker_position data) = pre).
  { rewrite slice_to_firstn by lia. rewrite <- Hpre, Hd.
    apply firstn_len_app. }
  assert (H2 : Py.slice_to data (splice_point data) = pre ++ py ".").
  { rewrite slice_to_firstn by lia. rewrite Hsp.
    replace (Py.find data help_begin_text 0 + 19) with (len (pre ++ py "."))
      by (rewrite len_app, Hpre; change (len (py ".")) with 1; lia).
    rewrite Hd.
    change help_end_text with (py "." ++ py ". END HELP TEXT").
    replace (pre ++ (py "." ++ py ". END HELP TEXT") ++ post)
      with ((pre ++ py ".") ++ py ". END HELP TEXT" ++ post)
      by (rewrite <- !app_assoc; reflexivity).
    apply firstn_len_app. }
  rewrite H1, H2, <- app_assoc. reflexivity.
Qed.

Lemma adjacent_markers_insert_witness :
  end_marker_position adjacent_markers_text
  = Py.find adjacent_markers_text help_begin_text 0 + len help_begin_text /\
  stored_text (snd (main adjacent_markers))
  = Some (Py.slice_to adjacent_markers_text
            (end_marker_position adjacent_markers_text)
          ++ py "." ++ scenario_block
          ++ Py.slice_from adjacent_markers_text
               (end_marker_position adjacent_markers_text)).
Proof.
  apply (adjacent_markers_insert adjacent_markers scenario_block
           adjacent_markers_text).
  - vm_compute. reflexivity.
  - vm_compute. reflexivity.
  - by_search.
  - reflexivity.
  - vm_compute. reflexivity.
Defined.

(** ** Lines of the block *)




(** X10.  Indenting neither joins nor splits lines: the lines of the
    indented text are the lines of the text, each with the prefix in
    front when it has a character other than whitespace and unchanged
    when it has none. *)
Theorem indent_keeps_lines (text prefix : str) :
  (forall c, In c prefix -> Py.islinebreak c = false) ->
  Py.splitlines true (Py.indent text prefix)
  = map (indent_line prefix) (Py.splitlines true text).
Proof.
  intros Hp. apply (indent_splitlines_aux prefix Hp text).
Qed.

Lemma indent_keeps_lines_witness :
  Py.splitlines true (Py.indent (scenario_decoded ++ py "\n\n") (py "   "))
  = map (indent_line (py "   "))
      (Py.splitlines true (scenario_decoded ++ py "\n\n")).
Proof.
  apply (indent_keeps_lines (scenario_decoded ++ py "\n\n") (py "   ")).
  intros c Hc. vm_compute in Hc.
  repeat (destruct Hc as [<- | Hc]; [reflexivity|]). destruct Hc.
Defined.

(** X11.  The lines of the block are: an empty line, the label line, an
    empty line, and the lines of the stripped help text and the two
    newlines behind it, indented.  So every line of the block is the
    label line, or has whitespace only, or starts with the three
    spaces: no line of the child's output starts a line of the document
    with a visible character. *)
Theorem block_lines (decoded : str) :
  Py.splitlines true (format_help decoded)
  = [py "\n"; label_line ++ py "\n"; py "\n"]
    ++ map (indent_line (py "   "))
         (Py.splitlines true (Py.rstrip decoded ++ py "\n\n")) /\
  forall line,
    In line (Py.splitlines true (format_help decoded)) ->
    line = label_line ++ py "\n" \/
    only_whitespace line \/
    exists l, line = py "   " ++ l /\ ~ only_whitespace l.
Proof.
  assert (E : Py.splitlines true (format_help decoded)
              = [py "\n"; label_line ++ py "\n"; py "\n"]
                ++ map (indent_line (py "   "))
                     (Py.splitlines true (Py.rstrip decoded ++ py "\n\n"))).
  { rewrite format_help_eq.
    change (py "\nOutput of ``nirw-search --help``::\n\n")
      with (py "\nOutput of ``nirw-search --help``::\n" ++ [10%N]).
    rewrite splitlines_app_newline. f_equal.
    apply indent_splitlines_aux. intros c Hc. vm_compute in Hc.
    repeat (destruct Hc as [<- | Hc]; [reflexivity|]). destruct Hc. }
  split; [exact E|].
  intros line Hin. rewrite E in Hin.
  apply in_app_iff in Hin as [Hin | Hin].
  - destruct Hin as [<- | [<- | [<- | []]]].
    + right. left. intros c [<- | []]. reflexivity.
    + left. reflexivity.
    + right. left. intros c [<- | []]. reflexivity.
  - apply in_map_iff in Hin as (l & <- & _). unfold indent_line.
    destruct (Py.indent_predicate l) eqn:Ep.
    + right. right. exists l. split; [reflexivity|].
      apply indent_predicate_true_iff. exact Ep.
    + right. left. apply indent_predicate_false_iff. exact Ep.
Qed.

(** ** A help text that shows the end marker *)

Lemma universal_newlines_app_plain (a b : str) :
  hd_error b <> Some 10%N ->
  Codec.universal_newlines (a ++ b)
  = Codec.universal_newlines a ++ Codec.universal_newlines b.
Proof.
  intros Hb. remember (length a) as n eqn:Hn. revert a Hn.
  induction n as [n IH] using lt_wf_ind. intros a Hn.
  destruct a as [|c a']; [reflexivity|].
  cbn [app Codec.universal_newlines].
  destruct (c =? 13)%N.
  - destruct a' as [|d a'']; cbn [app].
    + destruct b as [|d b']; [reflexivity|].
      destruct (d =? 10)%N eqn:Ed; [|reflexivity].
      apply N.eqb_eq in Ed. subst d. exfalso. apply Hb. reflexivity.
    + destruct (d =? 10)%N; cbn [app]; f_equal.
      * apply (IH (length a'') ltac:(subst n; simpl; lia) a'' eq_refl).
      * apply (IH (length (d :: a'')) ltac:(subst n; simpl; lia)
                 (d :: a'') eq_refl).
  - cbn [app]. f_equal.
    apply (IH (length a') ltac:(subst n; simpl; lia) a' eq_refl).
Qed.

Lemma startswith_universal_newlines_fwd (sub s : str) :
  ~ In 13%N sub ->
  Py.startswith s sub = true ->
  Py.startswith (Codec.universal_newlines s) sub = true.
Proof.
  revert s. induction sub as [|p sub IH]; intros s Hsub; [reflexivity|].
  destruct s as [|c s']; cbn [Py.startswith]; [discriminate|].
  intros H. apply andb_true_iff in H as [H1 H2].
  apply N.eqb_eq in H1. subst c.
  cbn [Codec.universal_newlines].
  destruct (p =? 13)%N eqn:Ep.
  - apply N.eqb_eq in Ep. exfalso. apply Hsub. left. auto.
  - cbn [Py.startswith]. rewrite N.eqb_refl. cbn [andb].
    apply IH; [|exact H2]. intros Hin. apply Hsub. right. exact Hin.
Qed.

(** A text without newline and carriage return that occurs in the raw
    text occurs in the translated text. *)
Lemma occurs_universal_newlines_fwd (sub s : str) :
  ~ In 10%N sub -> ~ In 13%N sub -> sub <> [] ->
  occurs sub s -> occurs sub (Codec.universal_newlines s).
Proof.
  intros H10 H13 Hne (i & pre & post & -> & _).
  rewrite universal_newlines_app_plain.
  - eexists. apply occurs_at_app_r.
    apply occurs_at_iff. split.
    + split; [reflexivity | apply len_nonneg].
    + cbn [Z.to_nat skipn]. apply startswith_universal_newlines_fwd; auto.
      apply startswith_app.
  - destruct sub as [|x sub']; [congruence|]. cbn [app hd_error].
    intros [= ->]. apply H10. left. reflexivity.
Qed.

(** X12.  When the formatted block shows the end marker, a second run
    with the same output does not reproduce the document: it takes the
    end marker inside the block for the end of the region, and the
    document it writes is longer than the one the first run wrote. *)
Theorem second_run_grows (w : world) (block data : str) :
  formatted_block w = Some block ->
  document_text w = Some data ->
  valid_document data ->
  readme_writable w = true ->
  occurs help_end_text block ->
  exists first second,
    stored_text (snd (main w)) = Some first /\
    stored_text (snd (main (snd (main w)))) = Some second /\
    len first < len second.
Proof.
  intros Hblock Hdata Hv Hw Hocc.
  destruct (main_splices w block data Hblock Hdata Hv Hw)
    as (bs & Hm & _ & Hdec).
  pose proof (document_text_after_run w block data Hblock Hdata Hv Hw) as Hd1.
  rewrite Hm in Hd1 |- *. cbn [snd] in Hd1 |- *.
  set (X := Codec.universal_newlines block) in *.
  set (D1 := spliced data X) in *.
  pose proof (spliced_valid_document data X Hv) as Hv1. fold D1 in Hv1.
  assert (Hblock1 : formatted_block (after_write w bs) = Some block)
    by exact Hblock.
  destruct (main_splices (after_write w bs) block D1 Hblock1 Hd1 Hv1 Hw)
    as (bs1 & Hm1 & _ & Hdec1).
  exists (spliced data block), (spliced D1 block).
  rewrite Hm1. cbn [snd]. rewrite !stored_text_after_write.
  split; [exact Hdec|]. split; [exact Hdec1|].
  (* positions in the document of the second run *)
  destruct (splice_positions data Hv) as (Hb & Hsp & Hbe & Hel).
  assert (Hfb : Py.find D1 help_begin_text 0 = Py.find data help_begin_text 0).
  { apply find_first_occurrence; [lia | apply resplice_begin; exact Hv]. }
  assert (Hsp1 : splice_point D1 = splice_point data).
  { unfold splice_point. rewrite Hfb. reflexivity. }
  destruct (valid_document_found D1 Hv1) as (_ & (_ & _ & Hmin) & _).
  rewrite Hfb in Hmin.
  assert (HX : occurs help_end_text X).
  { apply occurs_universal_newlines_fwd; try assumption.
    - apply end_marker_has_no_newline.
    - vm_compute. intuition discriminate.
    - discriminate. }
  destruct HX as (k & Hk).
  pose proof (occurs_at_range _ _ _ Hk) as [Hk0 Hk16].
  change (len help_end_text) with 16 in Hk16.
  pose proof (spliced_prefix_length data Hv) as Hl.
  assert (HkD : occurs_at help_end_text D1 (splice_point data + k)).
  { replace (splice_point data + k)
      with (len (firstn (Z.to_nat (splice_point data)) data) + k) by lia.
    unfold D1, spliced. apply occurs_at_app_r, occurs_at_app_l. exact Hk. }
  assert (He1 : end_marker_position D1 <= splice_point data + k).
  { destruct (Z_le_gt_dec (end_marker_position D1) (splice_point data + k))
      as [|Hgt]; [assumption|].
    exfalso. apply (Hmin (splice_point data + k)); [lia | exact HkD]. }
  rewrite (spliced_length D1 block Hv1), (spliced_length data block Hv).
  unfold D1 at 2. rewrite (spliced_length data X Hv), Hsp1. lia.
Qed.

Lemma second_run_grows_witness :
  exists first second,
    stored_text (snd (main end_marker_in_help)) = Some first /\
    stored_text (snd (main (snd (main end_marker_in_help)))) = Some second /\
    len first < len second.
Proof.
  apply (second_run_grows end_marker_in_help
           (format_help (py ".. END HELP TEXT\n"))
           (py ".. BEGIN HELP TEXT\n.. END HELP TEXT\n")).
  - vm_compute. reflexivity.
  - vm_compute. reflexivity.
  - by_search.
  - reflexivity.
  - apply (startswith_skipn_occurs _ _ 40). vm_compute. reflexivity.
Defined.
